(** * HTTP gateway of the Claude Agent SDK: session registry and responders

    A shallow embedding of [src/claude_agent_sdk/api_server.py]: the
    [SessionManager] class, the lifespan teardown and the seven FastAPI
    endpoints, followed by the properties of the registry contract and of
    the streaming protocol.

    Conventions of the embedding.
    - A Python [dict] keeps its keys in insertion order and
      [list(d.keys())] exposes that order, so a dict is an association list
      with the operations the program uses ([in], [get], [d[k] = v],
      [del d[k]], [len], [keys]).
    - The collaborators of the server (the SDK client objects, [sdk_query],
      [uuid.uuid4], the [ClaudeAgentOptions] constructor) are the fields of
      the class [Collaborators].  An operation of a collaborator either
      returns or raises an [Exception]; a raised exception is represented by
      its [str(e)].  Signals outside [Exception] (task cancellation,
      generator exit) are not part of the model.
    - Execution is sequential: one handler runs to completion before the
      next starts.  Handlers are written in a state-and-exception monad over
      the [World]; a mutation made before an exception is raised persists,
      as in Python.
    - A [Request] is a request that FastAPI has routed to an endpoint
      function with a body that the endpoint's request model accepts.  The
      answers FastAPI makes without running an endpoint function (422 for a
      rejected body; 404, 405 and 307 from routing) are not part of the
      model.
    - A streamed response is represented by its generator drained to the
      end: the frames it yields and the exception that ends it, if any. *)

From Stdlib Require Import String Ascii List Bool Arith NArith ZArith Lia.
From Stdlib Require Import DecimalString.
Import ListNotations.
Local Open Scope string_scope.
Local Open Scope list_scope.
Set Warnings "-register-all".

(** * Part I: the program *)

(** ** Python dictionaries with string keys *)

Module Dict.

Definition dict (V : Type) : Type := list (string * V).

Definition empty {V : Type} : dict V := [].

(** [list(d.keys())] *)
Definition keys {V : Type} (d : dict V) : list string := map fst d.

(** [list(d.values())] *)
Definition values {V : Type} (d : dict V) : list V := map snd d.

(** [len(d)] *)
Definition len {V : Type} (d : dict V) : nat := length d.

(** [d.get(k)] *)
Fixpoint get {V : Type} (k : string) (d : dict V) : option V :=
  match d with
  | [] => None
  | (k', v) :: d' => if String.eqb k k' then Some v else get k d'
  end.

(** [k in d] *)
Definition mem {V : Type} (k : string) (d : dict V) : bool :=
  match get k d with Some _ => true | None => false end.

(** [d[k] = v]: an existing key keeps its position, a new key goes last. *)
Fixpoint set {V : Type} (k : string) (v : V) (d : dict V) : dict V :=
  match d with
  | [] => [(k, v)]
  | (k', v') :: d' =>
      if String.eqb k k' then (k', v) :: d' else (k', v') :: set k v d'
  end.

(** [del d[k]] for a key that is present.  On an absent key, where Python
    raises [KeyError], it is the identity: the program deletes only keys it
    has just tested with [in]. *)
Fixpoint del {V : Type} (k : string) (d : dict V) : dict V :=
  match d with
  | [] => []
  | (k', v') :: d' =>
      if String.eqb k k' then del k d' else (k', v') :: del k d'
  end.

(** Representation invariant of a dict: no key occurs twice. *)
Definition wf {V : Type} (d : dict V) : Prop := NoDup (keys d).

End Dict.

Import Dict.

(** ** JSON values, as handed to [json.dumps] and to the response classes *)

Inductive Json : Type :=
| JNull
| JBool (b : bool)
| JInt (z : Z)
| JString (s : string)
| JArray (items : list Json)
| JObject (fields : dict Json).

(** [j[k]] on a JSON object *)
Definition json_field (k : string) (j : Json) : option Json :=
  match j with
  | JObject fields => Dict.get k fields
  | _ => None
  end.

(** ** Exceptions *)

(** The two classes of exception the handlers see: an [Exception] raised by
    a collaborator, carrying its message, and FastAPI's [HTTPException]. *)
Inductive exn : Type :=
| Exception (msg : string)
| HTTPException (status_code : nat) (detail : string).

Definition str_nat (n : nat) : string := NilEmpty.string_of_uint (Nat.to_uint n).

(** [str(e)]; Starlette prints an [HTTPException] as [status_code: detail]. *)
Definition str_exn (e : exn) : string :=
  match e with
  | Exception msg => msg
  | HTTPException status_code detail => str_nat status_code ++ ": " ++ detail
  end.

(** ** Asynchronous iterators *)

(** The behaviour of an async iterator when it is drained: it yields a
    value and goes on, or is exhausted, or raises. *)
Inductive AsyncIter (A : Type) : Type :=
| Yield (a : A) (rest : AsyncIter A)
| StopAsyncIteration
| Raise (msg : string).

Arguments Yield {A} a rest.
Arguments StopAsyncIteration {A}.
Arguments Raise {A} msg.

(** The values an iterator yields before it stops or raises. *)
Fixpoint yields {A : Type} (it : AsyncIter A) : list A :=
  match it with
  | Yield a rest => a :: yields rest
  | StopAsyncIteration => []
  | Raise _ => []
  end.

(** The message of the exception that ends the iteration, if any. *)
Fixpoint raises {A : Type} (it : AsyncIter A) : option string :=
  match it with
  | Yield _ rest => raises rest
  | StopAsyncIteration => None
  | Raise msg => Some msg
  end.

(** ** Server-sent event frames and async generators *)

(** The text [data: <json.dumps(payload)>\n\n]. *)
Inductive Frame : Type :=
| Data (payload : Json).

Definition frame_type (f : Frame) : option Json :=
  match f with Data payload => json_field "type" payload end.

Definition is_message (f : Frame) : bool :=
  match frame_type f with
  | Some (JString t) => String.eqb t "message"
  | _ => false
  end.

(** A terminal frame is a [done] or an [error] frame. *)
Definition is_terminal (f : Frame) : bool :=
  match frame_type f with
  | Some (JString t) => String.eqb t "done" || String.eqb t "error"
  | _ => false
  end.

(** A run of an async generator: the frames it yields, and the exception
    that ends it when it does not return. *)
Record Gen : Type := mkGen {
  yielded : list Frame;
  raised : option exn
}.

(** [UnboundLocalError] on the local name [name]: an [Exception], with the
    text Python 3.11 and later give it. *)
Definition UnboundLocalError (name : string) : exn :=
  Exception
    ("cannot access local variable '" ++ name
     ++ "' where it is not associated with a value").

(** The body of a generator, in progress.  The one local name that matters
    is [json]: the statement [import json] stands inside the loop body of
    [generate], which makes [json] a local of the generator, unbound until
    the loop body has run once.  A body takes the state of that name
    ([true]: bound) to the frames it yields, the way it ends, and the state
    of the name afterwards. *)
Definition GenBody (A : Type) : Type :=
  bool -> (list Frame * (exn + A)) * bool.

Definition gen_bind {A B : Type} (g : GenBody A) (k : A -> GenBody B)
  : GenBody B :=
  fun json =>
    match g json with
    | ((frames, inl e), json') => ((frames, inl e), json')
    | ((frames, inr a), json') =>
        match k a json' with
        | ((frames', r), json'') => ((frames ++ frames', r), json'')
        end
    end.

(** [g1; g2] *)
Definition gen_seq (g1 g2 : GenBody unit) : GenBody unit :=
  gen_bind g1 (fun _ => g2).

(** [yield f] *)
Definition gen_yield (f : Frame) : GenBody unit :=
  fun json => (([f], inr tt), json).

(** [import json] *)
Definition import_json : GenBody unit :=
  fun _ => (([], inr tt), true).

(** [json.dumps(payload)]: the name [json] is read first. *)
Definition json_dumps (payload : Json) : GenBody Json :=
  fun json =>
    if json then (([], inr payload), json)
    else (([], inl (UnboundLocalError "json")), json).

(** [yield f"data: {json.dumps(payload)}\n\n"] *)
Definition gen_yield_data (payload : Json) : GenBody unit :=
  gen_bind (json_dumps payload) (fun dumped => gen_yield (Data dumped)).

(** [try: g  except Exception as e: handler(e)] *)
Definition gen_try (g : GenBody unit) (handler : exn -> GenBody unit)
  : GenBody unit :=
  fun json =>
    match g json with
    | ((frames, inl e), json') =>
        match handler e json' with
        | ((frames', r), json'') => ((frames ++ frames', r), json'')
        end
    | ((frames, inr a), json') => ((frames, inr a), json')
    end.

(** [async for x in it: body(x)] inside a generator *)
Fixpoint gen_async_for {A : Type} (it : AsyncIter A) (body : A -> GenBody unit)
  : GenBody unit :=
  match it with
  | Yield a rest => gen_seq (body a) (gen_async_for rest body)
  | StopAsyncIteration => fun json => (([], inr tt), json)
  | Raise msg => fun json => (([], inl (Exception msg)), json)
  end.

(** The generator object of a body, drained: no local is bound at the
    start. *)
Definition run_generator (g : GenBody unit) : Gen :=
  match g false with
  | ((frames, inl e), _) => mkGen frames (Some e)
  | ((frames, inr _), _) => mkGen frames None
  end.

(** ** UUIDs *)

Definition hex_digit (d : N) : ascii :=
  match N.to_nat d with
  | 0 => "0" | 1 => "1" | 2 => "2" | 3 => "3" | 4 => "4" | 5 => "5"
  | 6 => "6" | 7 => "7" | 8 => "8" | 9 => "9" | 10 => "a" | 11 => "b"
  | 12 => "c" | 13 => "d" | 14 => "e" | _ => "f"
  end%char.

(** The [n] low hexadecimal digits of [x], most significant first:
    ['%0nx' % x] for [x < 16^n]. *)
Fixpoint hex_digits (n : nat) (x : N) : list ascii :=
  match n with
  | O => []
  | S n' => hex_digits n' (x / 16) ++ [hex_digit (x mod 16)]
  end.

(** [l[i:j]] *)
Definition slice {A : Type} (i j : nat) (l : list A) : list A :=
  firstn (j - i) (skipn i l).

(** [str(u)] for a [uuid.UUID] of integer value [u]: the 32 hexadecimal
    digits, grouped 8-4-4-4-12. *)
Definition str_uuid (u : N) : string :=
  let hex := hex_digits 32 u in
  string_of_list_ascii
    (slice 0 8 hex ++ ["-"%char] ++ slice 8 12 hex ++ ["-"%char] ++
     slice 12 16 hex ++ ["-"%char] ++ slice 16 20 hex ++ ["-"%char] ++
     skipn 20 hex).

(** ** The collaborators *)

(** An SDK client object, given by what its operations do when called:
    [None] is a normal return, [Some msg] an [Exception] with that message.
    [receive_response] is the reply to the prompt that was just sent. *)
Record ClaudeSDKClient (Options Message : Type) : Type := mkClient {
  client_options : Options;
  aenter : option string;
  query : string -> option string;
  receive_response : string -> AsyncIter Message;
  aexit : option string
}.

Arguments mkClient {Options Message}.
Arguments client_options {Options Message}.
Arguments aenter {Options Message}.
Arguments query {Options Message}.
Arguments receive_response {Options Message}.
Arguments aexit {Options Message}.

(** What the server imports.  [uuid4 i] is the integer value of the UUID
    returned by the [i]-th call of [uuid.uuid4()], and
    [ClaudeSDKClient_init i] the object built by the [i]-th call of the
    client constructor. *)
Class Collaborators : Type := {
  Message : Type;
  str_message : Message -> string;
  ClaudeAgentOptions : Type;
  ClaudeAgentOptions_default : ClaudeAgentOptions;
  ClaudeAgentOptions_kwargs : dict Json -> string + ClaudeAgentOptions;
  ClaudeSDKClient_init :
    nat -> ClaudeAgentOptions -> ClaudeSDKClient ClaudeAgentOptions Message;
  uuid4 : nat -> N;
  sdk_query : string -> option ClaudeAgentOptions -> AsyncIter Message
}.

Section Server.

Context {sdk : Collaborators}.

Definition Client : Type := ClaudeSDKClient ClaudeAgentOptions Message.

(** ** The world: the session manager and the server's surroundings *)

(** The two dictionaries of [SessionManager.__init__]. *)
Record SessionManager : Type := mkSessionManager {
  sessions : dict Client;
  session_options : dict ClaudeAgentOptions
}.

(** A call of one of the three operations of a client object that the
    server awaits and that change the life of a session: [__aenter__],
    [query] and [__aexit__].  The call of [receive_response()] is not in
    this log: it is represented by the iterator it returns. *)
Inductive Call : Type :=
| Call_aenter (client : Client)
| Call_query (client : Client) (prompt : string)
| Call_aexit (client : Client).

(** [session_manager] is the module-level manager; [uuid_calls] and
    [clients_built] count the calls of [uuid.uuid4] and of the client
    constructor; [calls] records the calls made on clients, oldest first. *)
Record World : Type := mkWorld {
  session_manager : SessionManager;
  uuid_calls : nat;
  clients_built : nat;
  calls : list Call
}.

Definition initial_world : World :=
  mkWorld (mkSessionManager Dict.empty Dict.empty) 0 0 [].

(** ** The monad of handlers *)

Definition M (A : Type) : Type := World -> (exn + A) * World.

Definition ret {A : Type} (a : A) : M A := fun w => (inr a, w).

Definition bind {A B : Type} (m : M A) (k : A -> M B) : M B :=
  fun w =>
    match m w with
    | (inl e, w') => (inl e, w')
    | (inr a, w') => k a w'
    end.

Definition raise {A : Type} (e : exn) : M A := fun w => (inl e, w).

(** [try: m  except Exception as e: handler(e)] *)
Definition try_except {A : Type} (m : M A) (handler : exn -> M A) : M A :=
  fun w =>
    match m w with
    | (inl e, w') => handler e w'
    | (inr a, w') => (inr a, w')
    end.

Definition gets {A : Type} (f : World -> A) : M A := fun w => (inr (f w), w).

Definition modify (f : World -> World) : M unit := fun w => (inr tt, f w).

End Server.

Declare Scope monad_scope.
Delimit Scope monad_scope with monad.
Notation "x <- m ;; k" := (bind m (fun x => k))
  (at level 61, m at next level, right associativity) : monad_scope.
Notation "m ;; k" := (bind m (fun _ => k))
  (at level 61, right associativity) : monad_scope.
Local Open Scope monad_scope.

(** ** Request and response models *)

Module QueryRequest.
Record t : Type := mk {
  prompt : string;
  options : option (dict Json);
  stream : bool
}.
End QueryRequest.

Module SessionCreateRequest.
Record t : Type := mk {
  options : option (dict Json)
}.
End SessionCreateRequest.

Module SessionQueryRequest.
Record t : Type := mk {
  prompt : string;
  stream : bool
}.
End SessionQueryRequest.

(** Truth value of an [Optional[Dict]]: [None] and the empty dict are false. *)
Definition truthy (o : option (dict Json)) : bool :=
  match o with
  | None => false
  | Some [] => false
  | Some (_ :: _) => true
  end.

(** What an endpoint function returns: a plain dict, one of the response
    classes, or the pydantic model [SessionResponse]. *)
Inductive Response : Type :=
| Return_dict (content : Json)
| JSONResponse (content : Json)
| StreamingResponse (body : Gen) (media_type : string)
    (headers : list (string * string))
| SessionResponse (session_id message : string).

(** The body of an HTTP response, and the response FastAPI sends. *)
Inductive Body : Type :=
| JsonBody (content : Json)
| EventStream (frames : list Frame)
| PlainText (text : string).

Record HttpResponse : Type := mkHttp {
  http_status : nat;
  http_body : Body
}.

(** FastAPI's treatment of an endpoint's outcome: a returned value is sent
    with status 200 (no endpoint sets another), an [HTTPException] with its
    own status and a [detail] body, and any other exception as the server
    error 500. *)
Definition fastapi (r : exn + Response) : HttpResponse :=
  match r with
  | inr (Return_dict content) => mkHttp 200 (JsonBody content)
  | inr (JSONResponse content) => mkHttp 200 (JsonBody content)
  | inr (StreamingResponse body _ _) => mkHttp 200 (EventStream (yielded body))
  | inr (SessionResponse session_id message) =>
      mkHttp 200 (JsonBody (JObject [("session_id", JString session_id);
                                     ("message", JString message)]))
  | inl (HTTPException status_code detail) =>
      mkHttp status_code (JsonBody (JObject [("detail", JString detail)]))
  | inl (Exception _) => mkHttp 500 (PlainText "Internal Server Error")
  end.

(** The frames a response carries: none unless it is an event stream. *)
Definition frames_of (r : HttpResponse) : list Frame :=
  match http_body r with
  | EventStream frames => frames
  | _ => []
  end.

(** The three frames of the event-stream protocol, used to state
    examples. *)
Definition message_frame (content : string) : Frame :=
  Data (JObject [("type", JString "message"); ("content", JString content)]).

Definition done_frame : Frame :=
  Data (JObject [("type", JString "done")]).

Definition error_frame (error : string) : Frame :=
  Data (JObject [("type", JString "error"); ("error", JString error)]).

Definition sse_headers : list (string * string) :=
  [("Cache-Control", "no-cache"); ("Connection", "keep-alive")].

Section Handlers.

Context {sdk : Collaborators}.

(** ** Calls on the collaborators *)

(** [uuid.uuid4()] *)
Definition uuid_uuid4 : M N :=
  fun w =>
    (inr (uuid4 (uuid_calls w)),
     mkWorld (session_manager w) (S (uuid_calls w)) (clients_built w) (calls w)).

(** [ClaudeSDKClient(options=options)] *)
Definition ClaudeSDKClient_new (options : ClaudeAgentOptions) : M Client :=
  fun w =>
    (inr (ClaudeSDKClient_init (clients_built w) options),
     mkWorld (session_manager w) (uuid_calls w) (S (clients_built w)) (calls w)).

Definition record_call (c : Call) : M unit :=
  modify (fun w =>
    mkWorld (session_manager w) (uuid_calls w) (clients_built w) (calls w ++ [c])).

(** The outcome of a call on a collaborator, lifted to the monad. *)
Definition outcome (o : option string) : M unit :=
  match o with
  | None => ret tt
  | Some msg => raise (Exception msg)
  end.

(** [await client.__aenter__()] *)
Definition client_aenter (client : Client) : M unit :=
  record_call (Call_aenter client) ;; outcome (aenter client).

(** [await client.query(prompt)] *)
Definition client_query (client : Client) (prompt : string) : M unit :=
  record_call (Call_query client prompt) ;; outcome (query client prompt).

(** [await client.__aexit__(None, None, None)] *)
Definition client_aexit (client : Client) : M unit :=
  record_call (Call_aexit client) ;; outcome (aexit client).

(** The constructor [ClaudeAgentOptions] applied to unpacked keyword
    arguments. *)
Definition ClaudeAgentOptions_new (kwargs : dict Json) : M ClaudeAgentOptions :=
  match ClaudeAgentOptions_kwargs kwargs with
  | inl msg => raise (Exception msg)
  | inr options => ret options
  end.

(** [async for x in it: acc = body(x, acc)] inside a handler *)
Fixpoint async_for {A S : Type} (it : AsyncIter A) (body : A -> S -> M S)
  (acc : S) : M S :=
  match it with
  | Yield a rest => acc' <- body a acc ;; async_for rest body acc'
  | StopAsyncIteration => ret acc
  | Raise msg => raise (Exception msg)
  end.

(** [for x in l: body(x)] *)
Fixpoint for_each {A : Type} (l : list A) (body : A -> M unit) : M unit :=
  match l with
  | [] => ret tt
  | x :: l' => body x ;; for_each l' body
  end.

(** ** class SessionManager *)

Definition set_sessions (d : dict Client) : M unit :=
  modify (fun w =>
    mkWorld (mkSessionManager d (session_options (session_manager w)))
            (uuid_calls w) (clients_built w) (calls w)).

Definition set_session_options (d : dict ClaudeAgentOptions) : M unit :=
  modify (fun w =>
    mkWorld (mkSessionManager (sessions (session_manager w)) d)
            (uuid_calls w) (clients_built w) (calls w)).

(** [SessionManager.create_session] *)
Definition create_session (options : option ClaudeAgentOptions) : M string :=
  u <- uuid_uuid4 ;;
  let session_id := str_uuid u in
  let options :=
    match options with
    | None => ClaudeAgentOptions_default
    | Some options => options
    end in
  client <- ClaudeSDKClient_new options ;;
  client_aenter client ;;
  self_sessions <- gets (fun w => sessions (session_manager w)) ;;
  set_sessions (Dict.set session_id client self_sessions) ;;
  self_options <- gets (fun w => session_options (session_manager w)) ;;
  set_session_options (Dict.set session_id options self_options) ;;
  ret session_id.

(** [SessionManager.get_session] *)
Definition get_session (session_id : string) : M (option Client) :=
  gets (fun w => Dict.get session_id (sessions (session_manager w))).

(** [SessionManager.close_session].  The membership test and the lookup
    [self.sessions[session_id]] are one [match] on [Dict.get]. *)
Definition close_session (session_id : string) : M bool :=
  self_sessions <- gets (fun w => sessions (session_manager w)) ;;
  match Dict.get session_id self_sessions with
  | Some client =>
      client_aexit client ;;
      self_sessions <- gets (fun w => sessions (session_manager w)) ;;
      set_sessions (Dict.del session_id self_sessions) ;;
      self_options <- gets (fun w => session_options (session_manager w)) ;;
      (if Dict.mem session_id self_options
       then set_session_options (Dict.del session_id self_options)
       else ret tt) ;;
      ret true
  | None => ret false
  end.

(** [SessionManager.close_all_sessions] *)
Definition close_all_sessions : M unit :=
  self_sessions <- gets (fun w => sessions (session_manager w)) ;;
  for_each (Dict.keys self_sessions)
    (fun session_id => close_session session_id ;; ret tt).

(** [SessionManager.list_sessions] *)
Definition list_sessions : M (list string) :=
  gets (fun w => Dict.keys (sessions (session_manager w))).

(** The shutdown half of [lifespan], after the [yield]. *)
Definition lifespan_shutdown : M unit := close_all_sessions.

(** ** Endpoints *)

(** [GET /health] *)
Definition health_check : M Response :=
  self_sessions <- gets (fun w => sessions (session_manager w)) ;;
  ret (Return_dict (JObject
    [("status", JString "healthy");
     ("service", JString "claude-agent-sdk-api");
     ("active_sessions", JInt (Z.of_nat (Dict.len self_sessions)))])).

(** The options of a request: [None] unless the request carries a non-empty
    dict, which goes to the [ClaudeAgentOptions] constructor. *)
Definition convert_options (o : option (dict Json))
  : M (option ClaudeAgentOptions) :=
  if truthy o then
    match o with
    | Some kwargs => options <- ClaudeAgentOptions_new kwargs ;; ret (Some options)
    | None => ret None
    end
  else ret None.

(** The generator [generate] nested in [query_claude], drained. *)
Definition query_claude_generate (request : QueryRequest.t)
  (options : option ClaudeAgentOptions) : Gen :=
  run_generator
    (gen_try
       (gen_seq
          (gen_async_for (sdk_query (QueryRequest.prompt request) options)
             (fun message =>
                gen_seq import_json
                  (gen_yield_data
                     (JObject [("type", JString "message");
                               ("content", JString (str_message message))]))))
          (gen_yield_data (JObject [("type", JString "done")])))
       (fun e =>
          gen_yield_data
            (JObject [("type", JString "error");
                      ("error", JString (str_exn e))]))).

(** [POST /query] *)
Definition query_claude (request : QueryRequest.t) : M Response :=
  try_except
    (options <- convert_options (QueryRequest.options request) ;;
     if QueryRequest.stream request then
       ret (StreamingResponse (query_claude_generate request options)
              "text/event-stream" sse_headers)
     else
       messages <- async_for (sdk_query (QueryRequest.prompt request) options)
                     (fun message messages =>
                        ret (messages ++ [str_message message])) [] ;;
       ret (JSONResponse (JObject
              [("status", JString "success");
               ("messages", JArray (map JString messages))])))
    (fun e => raise (HTTPException 500 (str_exn e))).

(** [POST /sessions]; named after its route because the manager's method
    has the name [create_session]. *)
Definition post_sessions (request : SessionCreateRequest.t) : M Response :=
  try_except
    (options <- convert_options (SessionCreateRequest.options request) ;;
     session_id <- create_session options ;;
     ret (SessionResponse session_id "Session created successfully"))
    (fun e => raise (HTTPException 500 (str_exn e))).

(** [GET /sessions]; named after its route because the manager's method
    has the name [list_sessions]. *)
Definition get_sessions : M Response :=
  ids <- list_sessions ;;
  self_sessions <- gets (fun w => sessions (session_manager w)) ;;
  ret (Return_dict (JObject
    [("sessions", JArray (map JString ids));
     ("count", JInt (Z.of_nat (Dict.len self_sessions)))])).

(** [GET /sessions/{session_id}] *)
Definition get_session_info (session_id : string) : M Response :=
  client <- get_session session_id ;;
  match client with
  | None => raise (HTTPException 404 "Session not found")
  | Some _ =>
      ret (Return_dict (JObject
        [("session_id", JString session_id); ("status", JString "active")]))
  end.

(** The generator [generate] nested in [query_session], drained; the client
    replies to the prompt sent just before. *)
Definition query_session_generate (client : Client)
  (request : SessionQueryRequest.t) : Gen :=
  run_generator
    (gen_try
       (gen_seq
          (gen_async_for
             (receive_response client (SessionQueryRequest.prompt request))
             (fun message =>
                gen_seq import_json
                  (gen_yield_data
                     (JObject [("type", JString "message");
                               ("content", JString (str_message message))]))))
          (gen_yield_data (JObject [("type", JString "done")])))
       (fun e =>
          gen_yield_data
            (JObject [("type", JString "error");
                      ("error", JString (str_exn e))]))).

(** [POST /sessions/{session_id}/query] *)
Definition query_session (session_id : string)
  (request : SessionQueryRequest.t) : M Response :=
  client <- get_session session_id ;;
  match client with
  | None => raise (HTTPException 404 "Session not found")
  | Some client =>
      try_except
        (client_query client (SessionQueryRequest.prompt request) ;;
         if SessionQueryRequest.stream request then
           ret (StreamingResponse (query_session_generate client request)
                  "text/event-stream" sse_headers)
         else
           messages <- async_for
                         (receive_response client (SessionQueryRequest.prompt request))
                         (fun message messages =>
                            ret (messages ++ [str_message message])) [] ;;
           ret (JSONResponse (JObject
                  [("status", JString "success");
                   ("session_id", JString session_id);
                   ("messages", JArray (map JString messages))])))
        (fun e => raise (HTTPException 500 (str_exn e)))
  end.

(** [DELETE /sessions/{session_id}] *)
Definition delete_session (session_id : string) : M Response :=
  success <- close_session session_id ;;
  if negb success then raise (HTTPException 404 "Session not found")
  else
    ret (Return_dict (JObject
      [("status", JString "success");
       ("message", JString ("Session " ++ session_id ++ " deleted successfully"))])).

(** ** The application *)

(** A request that has reached an endpoint function: it was routed to it
    and its body was accepted by the endpoint's request model.  What
    FastAPI answers before any endpoint function runs (422 for a body that
    the request model rejects, 404, 405 or 307 from routing) has no value
    in this type. *)
Inductive Request : Type :=
| GET_health
| POST_query (request : QueryRequest.t)
| POST_sessions (request : SessionCreateRequest.t)
| GET_sessions
| GET_session (session_id : string)
| POST_session_query (session_id : string) (request : SessionQueryRequest.t)
| DELETE_session (session_id : string).

(** Routing. *)
Definition app (r : Request) : M Response :=
  match r with
  | GET_health => health_check
  | POST_query request => query_claude request
  | POST_sessions request => post_sessions request
  | GET_sessions => get_sessions
  | GET_session session_id => get_session_info session_id
  | POST_session_query session_id request => query_session session_id request
  | DELETE_session session_id => delete_session session_id
  end.

(** One request that has reached its endpoint function: the answer, and
    the world when the endpoint function has returned or raised. *)
Definition serve (r : Request) (w : World) : HttpResponse * World :=
  let (outcome, w') := app r w in (fastapi outcome, w').

(** A sequence of requests, served one after the other. *)
Fixpoint serve_all (rs : list Request) (w : World)
  : list HttpResponse * World :=
  match rs with
  | [] => ([], w)
  | r :: rs' =>
      let (resp, w1) := serve r w in
      let (resps, w2) := serve_all rs' w1 in
      (resp :: resps, w2)
  end.

End Handlers.

(** ** A concrete set of collaborators *)

(** Used in the examples of Part III.  Messages are strings; a prompt
    [crash] makes the upstream raise after one message; a client refuses the
    empty prompt; the second client built (index 1) raises when it is
    closed; the [i]-th UUID is the version-4 UUID whose low bits are [i]. *)
Module Demo.

Definition reply (prompt : string) : AsyncIter string :=
  if String.eqb prompt "crash"
  then Yield "partial" (Raise "connection lost")
  else Yield "echo" (Yield prompt StopAsyncIteration).

Definition client (i : nat) (options : dict Json)
  : ClaudeSDKClient (dict Json) string :=
  mkClient options None
    (fun prompt => if String.eqb prompt "" then Some "empty prompt" else None)
    reply
    (if Nat.eqb i 1 then Some "process already exited" else None).

Definition sdk : Collaborators := {|
  Message := string;
  str_message := fun m => ("Message(" ++ m ++ ")")%string;
  ClaudeAgentOptions := dict Json;
  ClaudeAgentOptions_default := [];
  ClaudeAgentOptions_kwargs := fun kwargs =>
    if Dict.mem "model" kwargs then inr kwargs
    else inl "unexpected keyword argument";
  ClaudeSDKClient_init := client;
  uuid4 := fun i => (2 ^ 78 + 2 ^ 63 + N.of_nat i)%N;
  sdk_query := fun prompt _ => reply prompt
|}.

(** [POST /sessions] with an empty body. *)
Definition create : Request :=
  POST_sessions (SessionCreateRequest.mk None).

(** The worlds after one and after three sessions were created. *)
Definition w1 : World (sdk := sdk) :=
  snd (serve_all [create] initial_world).

Definition w3 : World (sdk := sdk) :=
  snd (serve_all [create; create; create] initial_world).

(** The ids of these sessions. *)
Definition id0 : string := "00000000-0000-4000-8000-000000000000".

Definition id1 : string := "00000000-0000-4000-8000-000000000001".

Definition id2 : string := "00000000-0000-4000-8000-000000000002".

End Demo.

(** A second set of collaborators, with faults: [uuid.uuid4] returns the
    same UUID every time, and the third client built (index 2) raises when
    it is entered. *)
Module Faulty.

Definition client (i : nat) (options : dict Json)
  : ClaudeSDKClient (dict Json) string :=
  mkClient options
    (if Nat.eqb i 2 then Some "CLI not found" else None)
    (fun _ => None)
    (fun prompt => Yield prompt StopAsyncIteration)
    None.

Definition sdk : Collaborators := {|
  Message := string;
  str_message := fun m => m;
  ClaudeAgentOptions := dict Json;
  ClaudeAgentOptions_default := [];
  ClaudeAgentOptions_kwargs := fun kwargs => inr kwargs;
  ClaudeSDKClient_init := client;
  uuid4 := fun _ => (2 ^ 78 + 2 ^ 63)%N;
  sdk_query := fun prompt _ => Yield prompt StopAsyncIteration
|}.

(** The worlds after one and after two sessions were created. *)
Definition w1 : World (sdk := sdk) :=
  snd (serve_all [Demo.create] initial_world).

Definition w2 : World (sdk := sdk) :=
  snd (serve_all [Demo.create; Demo.create] initial_world).

End Faulty.

(** A third set of collaborators, whose upstreams give no message: the
    reply to the prompt [crash] raises at once, every other reply is
    exhausted at once. *)
Module Silent.

Definition reply (prompt : string) : AsyncIter string :=
  if String.eqb prompt "crash" then Raise "connection lost"
  else StopAsyncIteration.

Definition sdk : Collaborators := {|
  Message := string;
  str_message := fun m => m;
  ClaudeAgentOptions := dict Json;
  ClaudeAgentOptions_default := [];
  ClaudeAgentOptions_kwargs := fun kwargs => inr kwargs;
  ClaudeSDKClient_init := fun _ options =>
    mkClient options None (fun _ => None) reply None;
  uuid4 := fun i => (2 ^ 78 + 2 ^ 63 + N.of_nat i)%N;
  sdk_query := fun prompt _ => reply prompt
|}.

End Silent.

(** * Part II: properties *)

(** ** Facts about dictionaries *)

Section DictFacts.

Context {V : Type}.
Implicit Types (d : dict V) (k : string) (v : V).

Lemma get_None_iff k d : Dict.get k d = None <-> ~ In k (Dict.keys d).
Proof.
  induction d as [|[k' v'] d IH]; simpl.
  - tauto.
  - destruct (String.eqb_spec k k') as [->|Hne].
    + split; [discriminate | intros H; exfalso; apply H; now left].
    + rewrite IH. split.
      * intros H [Heq|Hin]; [congruence | tauto].
      * intros H Hin. apply H. now right.
Qed.

Lemma mem_true_iff k d : Dict.mem k d = true <-> In k (Dict.keys d).
Proof.
  unfold Dict.mem. destruct (Dict.get k d) eqn:E.
  - split; [intros _ | reflexivity].
    destruct (in_dec string_dec k (Dict.keys d)) as [Hin|Hnin]; [exact Hin|].
    apply get_None_iff in Hnin. congruence.
  - apply get_None_iff in E. split; [discriminate | tauto].
Qed.

Lemma mem_false_iff k d : Dict.mem k d = false <-> ~ In k (Dict.keys d).
Proof.
  rewrite <- mem_true_iff. destruct (Dict.mem k d); split; congruence.
Qed.

Lemma get_Some_In k v d : Dict.get k d = Some v -> In (k, v) d.
Proof.
  induction d as [|[k' v'] d IH]; simpl; [discriminate|].
  destruct (String.eqb_spec k k') as [->|Hne].
  - intros [= ->]. now left.
  - intros H. right. now apply IH.
Qed.

Lemma keys_del k d :
  Dict.keys (Dict.del k d)
  = filter (fun k' => negb (String.eqb k k')) (Dict.keys d).
Proof.
  induction d as [|[k' v'] d IH]; simpl; [reflexivity|].
  destruct (String.eqb k k'); simpl; now rewrite IH.
Qed.

Lemma in_keys_del k k' d :
  In k' (Dict.keys (Dict.del k d)) <-> In k' (Dict.keys d) /\ k' <> k.
Proof.
  rewrite keys_del, filter_In.
  destruct (String.eqb_spec k k') as [->|Hne]; simpl; split;
    intros [H1 H2]; split; congruence || auto.
Qed.

Lemma mem_del_same k d : Dict.mem k (Dict.del k d) = false.
Proof.
  apply mem_false_iff. rewrite in_keys_del. tauto.
Qed.

Lemma mem_del_other k k' d :
  k' <> k -> Dict.mem k' (Dict.del k d) = Dict.mem k' d.
Proof.
  intros Hne. destruct (Dict.mem k' d) eqn:E.
  - apply mem_true_iff. rewrite in_keys_del. apply mem_true_iff in E. tauto.
  - apply mem_false_iff. rewrite in_keys_del. apply mem_false_iff in E. tauto.
Qed.

Lemma del_absent k d : ~ In k (Dict.keys d) -> Dict.del k d = d.
Proof.
  induction d as [|[k' v'] d IH]; simpl; [reflexivity|].
  intros H. destruct (String.eqb_spec k k') as [->|Hne].
  - exfalso. apply H. now left.
  - f_equal. apply IH. tauto.
Qed.

Lemma keys_set_absent k v d :
  ~ In k (Dict.keys d) -> Dict.keys (Dict.set k v d) = Dict.keys d ++ [k].
Proof.
  induction d as [|[k' v'] d IH]; simpl; [reflexivity|].
  intros H. destruct (String.eqb_spec k k') as [->|Hne].
  - exfalso. apply H. now left.
  - simpl. f_equal. apply IH. tauto.
Qed.

Lemma keys_set_present k v d :
  In k (Dict.keys d) -> Dict.keys (Dict.set k v d) = Dict.keys d.
Proof.
  induction d as [|[k' v'] d IH]; simpl; [tauto|].
  intros H. destruct (String.eqb_spec k k') as [->|Hne]; [reflexivity|].
  simpl. f_equal. apply IH. destruct H; congruence.
Qed.

Lemma in_keys_set k v k' d :
  In k' (Dict.keys (Dict.set k v d)) <-> k' = k \/ In k' (Dict.keys d).
Proof.
  destruct (in_dec string_dec k (Dict.keys d)) as [Hin|Hnin].
  - rewrite keys_set_present by assumption. split; [tauto|].
    intros [->|H]; assumption.
  - rewrite keys_set_absent by assumption. rewrite in_app_iff. simpl.
    split.
    + intros [H|[H|[]]]; auto.
    + intros [H|H]; auto.
Qed.

Lemma mem_set k v k' d :
  Dict.mem k' (Dict.set k v d) = String.eqb k' k || Dict.mem k' d.
Proof.
  destruct (String.eqb_spec k' k) as [->|Hne]; simpl.
  - apply mem_true_iff, in_keys_set. now left.
  - destruct (Dict.mem k' d) eqn:E.
    + apply mem_true_iff, in_keys_set. right. now apply mem_true_iff.
    + apply mem_false_iff. rewrite in_keys_set. apply mem_false_iff in E. tauto.
Qed.

Lemma len_keys d : Dict.len d = length (Dict.keys d).
Proof. unfold Dict.len, Dict.keys. now rewrite length_map. Qed.


Lemma wf_del k d : Dict.wf d -> Dict.wf (Dict.del k d).
Proof.
  unfold Dict.wf. rewrite keys_del. apply NoDup_filter.
Qed.

Lemma wf_set k v d : Dict.wf d -> Dict.wf (Dict.set k v d).
Proof.
  unfold Dict.wf. intros H.
  destruct (in_dec string_dec k (Dict.keys d)) as [Hin|Hnin].
  - now rewrite keys_set_present.
  - rewrite keys_set_absent by assumption.
    apply NoDup_app; [exact H | constructor; [simpl; tauto | constructor] |].
    intros x Hx [<-|[]]. contradiction.
Qed.

End DictFacts.

(** ** The streamed responder *)

(** The frames the protocol asks for: one [message] frame per upstream
    message, in order, then [done] when the upstream is exhausted, or
    [error] with the exception's text when it raises. *)
Definition expected_frames {A : Type} (str : A -> string)
  (upstream : AsyncIter A) : list Frame :=
  map (fun m =>
         Data (JObject [("type", JString "message");
                        ("content", JString (str m))]))
      (yields upstream)
  ++ [match raises upstream with
      | None => Data (JObject [("type", JString "done")])
      | Some msg =>
          Data (JObject [("type", JString "error"); ("error", JString msg)])
      end].

(** Frames with exactly one terminal frame, which is the last one, all the
    frames before it being message frames. *)
Definition well_framed (frames : list Frame) : Prop :=
  length (filter is_terminal frames) = 1
  /\ (forall before f after,
        frames = before ++ f :: after -> is_terminal f = true ->
        after = [] /\ forall f', In f' before -> is_message f' = true).

(** What a drained generator [g] does for [upstream], whose messages print
    as [str]: with at least one message, the frames of the protocol; with
    none, no frame at all and an [UnboundLocalError] on [json]. *)
Definition responder_outcome {A : Type} (str : A -> string)
  (upstream : AsyncIter A) (g : Gen) : Prop :=
  (yields upstream <> [] ->
   yielded g = expected_frames str upstream
   /\ raised g = None
   /\ well_framed (yielded g))
  /\ (yields upstream = [] ->
      yielded g = [] /\ raised g = Some (UnboundLocalError "json")).

(** The body that the two [generate] functions share, up to the upstream
    they drain. *)
Definition generate_body {A : Type} (str : A -> string)
  (upstream : AsyncIter A) : GenBody unit :=
  gen_try
    (gen_seq
       (gen_async_for upstream
          (fun message =>
             gen_seq import_json
               (gen_yield_data
                  (JObject [("type", JString "message");
                            ("content", JString (str message))]))))
       (gen_yield_data (JObject [("type", JString "done")])))
    (fun e =>
       gen_yield_data
         (JObject [("type", JString "error"); ("error", JString (str_exn e))])).

(** The loop: a message frame per message, and [json] bound as soon as one
    message has come. *)
Lemma gen_async_for_messages {A : Type} (str : A -> string)
  (upstream : AsyncIter A) :
  forall json,
    gen_async_for upstream
      (fun message =>
         gen_seq import_json
           (gen_yield_data
              (JObject [("type", JString "message");
                        ("content", JString (str message))]))) json
    = ((map (fun m => message_frame (str m)) (yields upstream),
        match raises upstream with
        | None => inr tt
        | Some msg => inl (Exception msg)
        end),
       match yields upstream with
       | [] => json
       | _ :: _ => true
       end).
Proof.
  induction upstream as [a rest IH| |msg]; intros json; try reflexivity.
  cbn [gen_async_for yields raises]. unfold gen_seq at 1, gen_bind at 1.
  unfold gen_seq at 1, gen_bind at 1, import_json, gen_yield_data, gen_bind at 1,
    json_dumps, gen_yield.
  cbn [app]. rewrite IH.
  destruct (raises rest), (yields rest); reflexivity.
Qed.

Lemma generate_run {A : Type} (str : A -> string) (upstream : AsyncIter A) :
  run_generator (generate_body str upstream)
  = match yields upstream with
    | [] => mkGen [] (Some (UnboundLocalError "json"))
    | _ :: _ => mkGen (expected_frames str upstream) None
    end.
Proof.
  unfold run_generator, generate_body, gen_try, gen_seq at 1, gen_bind at 1.
  rewrite gen_async_for_messages. unfold expected_frames.
  destruct (yields upstream) as [|m ms], (raises upstream) as [msg|];
    reflexivity.
Qed.

Lemma filter_terminal_messages (contents : list string) :
  filter is_terminal (map message_frame contents) = [].
Proof.
  induction contents as [|c cs IH]; simpl; [reflexivity | exact IH].
Qed.

Lemma messages_then_terminal (contents : list string) (t : Frame)
  (before after : list Frame) (f : Frame) :
  map message_frame contents ++ [t] = before ++ f :: after ->
  is_terminal f = true ->
  after = [] /\ forall f', In f' before -> is_message f' = true.
Proof.
  revert before. induction contents as [|c cs IH]; intros before Heq Hf; simpl in Heq.
  - destruct before as [|b before].
    + injection Heq as _ <-. split; [reflexivity | intros ? []].
    + injection Heq as _ Heq. destruct before; discriminate.
  - destruct before as [|b before].
    + injection Heq as <- _. discriminate.
    + injection Heq as <- Heq. destruct (IH _ Heq Hf) as [-> Hb].
      split; [reflexivity|]. intros f' [<-|Hin]; [reflexivity | now apply Hb].
Qed.

Lemma expected_frames_well_framed {A : Type} (str : A -> string)
  (upstream : AsyncIter A) :
  well_framed (expected_frames str upstream).
Proof.
  unfold expected_frames.
  change (fun m : A =>
            Data (JObject [("type", JString "message");
                           ("content", JString (str m))]))
    with (fun m : A => message_frame (str m)).
  rewrite <- (map_map str message_frame). split.
  - rewrite filter_app, filter_terminal_messages.
    destruct (raises upstream); reflexivity.
  - intros before f after. apply messages_then_terminal.
Qed.

Lemma generate_outcome {A : Type} (str : A -> string)
  (upstream : AsyncIter A) :
  responder_outcome str upstream (run_generator (generate_body str upstream)).
Proof.
  rewrite generate_run. split.
  - intros Hne. destruct (yields upstream) eqn:E; [contradiction|].
    cbn [yielded raised]. split; [reflexivity|]. split; [reflexivity|].
    apply expected_frames_well_framed.
  - intros ->. split; reflexivity.
Qed.

Section Properties.

Context {sdk : Collaborators}.

Implicit Types (w : World) (session_id : string) (client : Client).

(** ** Running handlers *)

Ltac unfold_monad :=
  unfold bind, ret, raise, gets, modify, try_except, outcome in *.

Definition log_call (c : Call) (w : World) : World :=
  mkWorld (session_manager w) (uuid_calls w) (clients_built w) (calls w ++ [c]).

Definition with_manager (m : SessionManager) (w : World) : World :=
  mkWorld m (uuid_calls w) (clients_built w) (calls w).

Lemma client_aexit_eq client w :
  client_aexit client w =
  (match aexit client with
   | None => inr tt
   | Some msg => inl (Exception msg)
   end, log_call (Call_aexit client) w).
Proof.
  unfold client_aexit, record_call. unfold_monad.
  destruct (aexit client); reflexivity.
Qed.

Lemma client_query_eq client prompt w :
  client_query client prompt w =
  (match query client prompt with
   | None => inr tt
   | Some msg => inl (Exception msg)
   end, log_call (Call_query client prompt) w).
Proof.
  unfold client_query, record_call. unfold_monad.
  destruct (query client prompt); reflexivity.
Qed.

Lemma close_session_absent w session_id :
  Dict.get session_id (sessions (session_manager w)) = None ->
  close_session session_id w = (inr false, w).
Proof.
  intros H. unfold close_session. unfold_monad. now rewrite H.
Qed.

Lemma close_session_raises w session_id client msg :
  Dict.get session_id (sessions (session_manager w)) = Some client ->
  aexit client = Some msg ->
  close_session session_id w
  = (inl (Exception msg), log_call (Call_aexit client) w).
Proof.
  intros H Hx. unfold close_session. unfold_monad. rewrite H.
  rewrite client_aexit_eq, Hx. reflexivity.
Qed.

Lemma close_session_closes w session_id client :
  Dict.get session_id (sessions (session_manager w)) = Some client ->
  aexit client = None ->
  close_session session_id w
  = (inr true,
     with_manager
       (mkSessionManager
          (Dict.del session_id (sessions (session_manager w)))
          (Dict.del session_id (session_options (session_manager w))))
       (log_call (Call_aexit client) w)).
Proof.
  intros H Hx. unfold close_session. unfold_monad. rewrite H.
  rewrite client_aexit_eq, Hx. simpl.
  destruct (Dict.mem session_id (session_options (session_manager w))) eqn:E;
    unfold with_manager; simpl; [reflexivity|].
  apply mem_false_iff in E. now rewrite (del_absent _ _ E).
Qed.

Lemma create_session_eq (options : option ClaudeAgentOptions) w :
  create_session options w =
  let session_id := str_uuid (uuid4 (uuid_calls w)) in
  let options' :=
    match options with
    | None => ClaudeAgentOptions_default
    | Some o => o
    end in
  let client := ClaudeSDKClient_init (clients_built w) options' in
  let w1 :=
    mkWorld (session_manager w) (S (uuid_calls w)) (S (clients_built w))
            (calls w ++ [Call_aenter client]) in
  match aenter client with
  | Some msg => (inl (Exception msg), w1)
  | None =>
      (inr session_id,
       with_manager
         (mkSessionManager
            (Dict.set session_id client (sessions (session_manager w)))
            (Dict.set session_id options' (session_options (session_manager w))))
         w1)
  end.
Proof.
  unfold create_session, uuid_uuid4, ClaudeSDKClient_new, client_aenter,
    record_call, set_sessions, set_session_options.
  unfold_monad. simpl.
  destruct (aenter _); reflexivity.
Qed.

(** ** The two maps of the manager hold the same keys *)

Definition keys_agree (m : SessionManager) : Prop :=
  forall id, Dict.mem id (sessions m) = Dict.mem id (session_options m).

(** The operations of the manager that write to its maps. *)
Inductive ManagerOp : Type :=
| Op_create_session (options : option ClaudeAgentOptions)
| Op_close_session (session_id : string)
| Op_close_all_sessions.

(** The world after an operation, whether it returns or raises. *)
Definition perform (op : ManagerOp) (w : World) : World :=
  match op with
  | Op_create_session options => snd (create_session options w)
  | Op_close_session session_id => snd (close_session session_id w)
  | Op_close_all_sessions => snd (close_all_sessions w)
  end.

Lemma close_session_manager w session_id :
  session_manager (snd (close_session session_id w)) = session_manager w
  \/ session_manager (snd (close_session session_id w))
     = mkSessionManager
         (Dict.del session_id (sessions (session_manager w)))
         (Dict.del session_id (session_options (session_manager w))).
Proof.
  destruct (Dict.get session_id (sessions (session_manager w))) as [client|] eqn:G.
  - destruct (aexit client) as [msg|] eqn:X.
    + left. now rewrite (close_session_raises _ _ _ _ G X).
    + right. now rewrite (close_session_closes _ _ _ G X).
  - left. now rewrite (close_session_absent _ _ G).
Qed.

Lemma create_session_manager (options : option ClaudeAgentOptions) w :
  session_manager (snd (create_session options w)) = session_manager w
  \/ exists client options',
       session_manager (snd (create_session options w))
       = mkSessionManager
           (Dict.set (str_uuid (uuid4 (uuid_calls w))) client
              (sessions (session_manager w)))
           (Dict.set (str_uuid (uuid4 (uuid_calls w))) options'
              (session_options (session_manager w))).
Proof.
  rewrite create_session_eq. cbv zeta.
  destruct (aenter _).
  - now left.
  - right. eexists _, _. reflexivity.
Qed.

Lemma for_each_invariant {A : Type} (P : World -> Prop) (body : A -> M unit)
  (l : list A) :
  (forall x w, P w -> P (snd (body x w))) ->
  forall w, P w -> P (snd (for_each l body w)).
Proof.
  intros Hbody. induction l as [|x l IH]; intros w Hw; simpl; [exact Hw|].
  unfold bind. specialize (Hbody x w Hw).
  destruct (body x w) as [[e|[]] w1]; simpl in *; [exact Hbody|].
  now apply IH.
Qed.

Lemma snd_discard {A : Type} (m : M A) w :
  snd ((m ;; ret tt) w) = snd (m w).
Proof.
  unfold bind, ret. destruct (m w) as [[e|a] w1]; reflexivity.
Qed.

Lemma close_all_sessions_eq w :
  close_all_sessions w
  = for_each (Dict.keys (sessions (session_manager w)))
      (fun session_id => close_session session_id ;; ret tt) w.
Proof. reflexivity. Qed.

Lemma close_all_sessions_invariant (P : World -> Prop) :
  (forall session_id w, P w -> P (snd (close_session session_id w))) ->
  forall w, P w -> P (snd (close_all_sessions w)).
Proof.
  intros Hclose w Hw. rewrite close_all_sessions_eq.
  apply for_each_invariant; [|exact Hw].
  intros x w0 Hw0. rewrite snd_discard. now apply Hclose.
Qed.

Lemma keys_agree_close_session w session_id :
  keys_agree (session_manager w) ->
  keys_agree (session_manager (snd (close_session session_id w))).
Proof.
  intros H. destruct (close_session_manager w session_id) as [->| ->];
    [exact H|].
  intros id. simpl. destruct (string_dec id session_id) as [->|Hne].
  - now rewrite !mem_del_same.
  - rewrite !mem_del_other by assumption. apply H.
Qed.

Lemma keys_agree_create_session (options : option ClaudeAgentOptions) w :
  keys_agree (session_manager w) ->
  keys_agree (session_manager (snd (create_session options w))).
Proof.
  intros H. destruct (create_session_manager options w) as [->|(c & o & ->)];
    [exact H|].
  intros id. simpl. rewrite !mem_set. now rewrite (H id).
Qed.

Lemma keys_agree_perform op w :
  keys_agree (session_manager w) ->
  keys_agree (session_manager (perform op w)).
Proof.
  intros H. destruct op as [options|session_id|]; simpl.
  - now apply keys_agree_create_session.
  - now apply keys_agree_close_session.
  - apply (close_all_sessions_invariant
             (fun w => keys_agree (session_manager w))); [|exact H].
    intros. now apply keys_agree_close_session.
Qed.

(** C9.  The key sets of [sessions] and [session_options] are equal in the
    initial manager, and [create_session], [close_session] and
    [close_all_sessions] keep them equal, also when they raise: after any
    sequence of these operations a session id is in one map exactly when it
    is in the other. *)
Theorem session_maps_hold_the_same_keys :
  (forall op w,
     keys_agree (session_manager w) ->
     keys_agree (session_manager (perform op w)))
  /\ (forall ops session_id,
        let w := fold_left (fun w op => perform op w) ops initial_world in
        In session_id (Dict.keys (sessions (session_manager w)))
        <-> In session_id (Dict.keys (session_options (session_manager w)))).
Proof.
  split; [intros; now apply keys_agree_perform|].
  intros ops session_id w.
  assert (H : keys_agree (session_manager w)).
  { subst w.
    assert (Hinit : keys_agree (session_manager initial_world))
      by (intros id; reflexivity).
    revert Hinit. generalize initial_world.
    induction ops as [|op ops IH]; intros w0 Hw0; simpl; [exact Hw0|].
    apply IH. now apply keys_agree_perform. }
  rewrite <- !mem_true_iff. now rewrite (H session_id).
Qed.

(** ** Closing a session *)

(** C1, as the code has it.  When the id is present and its client closes
    without raising, [close_session] calls the client's close, removes the
    entry from both maps and returns true.  When the client's close raises,
    the exception propagates and the manager is unchanged: the entry stays.
    When the id is absent, [close_session] returns false and the world is
    unchanged. *)
Theorem close_session_spec w session_id :
  (forall client,
     Dict.get session_id (sessions (session_manager w)) = Some client ->
     aexit client = None ->
     fst (close_session session_id w) = inr true
     /\ calls (snd (close_session session_id w))
        = calls w ++ [Call_aexit client]
     /\ Dict.mem session_id
          (sessions (session_manager (snd (close_session session_id w))))
        = false
     /\ session_manager (snd (close_session session_id w))
        = mkSessionManager
            (Dict.del session_id (sessions (session_manager w)))
            (Dict.del session_id (session_options (session_manager w))))
  /\ (forall client msg,
        Dict.get session_id (sessions (session_manager w)) = Some client ->
        aexit client = Some msg ->
        fst (close_session session_id w) = inl (Exception msg)
        /\ calls (snd (close_session session_id w))
           = calls w ++ [Call_aexit client]
        /\ session_manager (snd (close_session session_id w))
           = session_manager w)
  /\ (Dict.mem session_id (sessions (session_manager w)) = false ->
      close_session session_id w = (inr false, w)).
Proof.
  split; [|split].
  - intros client G X. rewrite (close_session_closes _ _ _ G X). simpl.
    repeat split. apply mem_del_same.
  - intros client msg G X. rewrite (close_session_raises _ _ _ _ G X). simpl.
    repeat split.
  - intros H. apply close_session_absent.
    unfold Dict.mem in H. destruct (Dict.get _ _); [discriminate | reflexivity].
Qed.

(** ** Closing all sessions *)

(** [d] after the keys [ks] have been deleted one by one. *)
Definition del_all {V : Type} (ks : list string) (d : dict V) : dict V :=
  fold_left (fun d k => Dict.del k d) ks d.

Lemma in_keys_del_all {V : Type} (ks : list string) :
  forall (d : dict V) k,
    In k (Dict.keys (del_all ks d)) <-> In k (Dict.keys d) /\ ~ In k ks.
Proof.
  induction ks as [|k0 ks IH]; intros d k; simpl.
  - tauto.
  - rewrite IH, in_keys_del. split.
    + intros [[H1 H2] H3]. split; [exact H1|]. intros [->|H]; tauto.
    + intros [H1 H2]. repeat split; auto.
Qed.

Lemma del_all_covered {V : Type} (ks : list string) (d : dict V) :
  (forall k, In k (Dict.keys d) -> In k ks) -> del_all ks d = [].
Proof.
  intros H. destruct (del_all ks d) as [|[k v] d'] eqn:E; [reflexivity|].
  exfalso. assert (Hin : In k (Dict.keys (del_all ks d)))
    by (rewrite E; now left).
  apply in_keys_del_all in Hin. destruct Hin as [H1 H2]. auto.
Qed.

Lemma for_each_cons {A : Type} (x : A) (l : list A) (body : A -> M unit) w :
  for_each (x :: l) body w =
  match body x w with
  | (inl e, w') => (inl e, w')
  | (inr _, w') => for_each l body w'
  end.
Proof. reflexivity. Qed.

(** Closing, in order, a prefix of the sessions whose clients all close
    without raising removes exactly that prefix. *)
Lemma close_each_prefix (before : dict Client) :
  forall (rest : dict Client) (ks : list string) w,
    Dict.wf (before ++ rest) ->
    sessions (session_manager w) = before ++ rest ->
    (forall id c, In (id, c) before -> aexit c = None) ->
    for_each (Dict.keys before ++ ks)
      (fun session_id => close_session session_id ;; ret tt) w
    = for_each ks (fun session_id => close_session session_id ;; ret tt)
        (mkWorld
           (mkSessionManager rest
              (del_all (Dict.keys before) (session_options (session_manager w))))
           (uuid_calls w) (clients_built w)
           (calls w ++ map Call_aexit (Dict.values before))).
Proof.
  induction before as [|[k c] before IH]; intros rest ks w Hwf Hs Hok.
  - simpl in *. destruct w as [[ss so] u cb cl]. simpl in *. subst ss.
    now rewrite app_nil_r.
  - change (Dict.keys ((k, c) :: before) ++ ks)
      with (k :: (Dict.keys before ++ ks)).
    rewrite for_each_cons.
    assert (G : Dict.get k (sessions (session_manager w)) = Some c)
      by (rewrite Hs; simpl; now rewrite String.eqb_refl).
    assert (X : aexit c = None) by (apply (Hok k); now left).
    unfold bind at 1. rewrite (close_session_closes _ _ _ G X).
    unfold ret at 1. cbv iota beta.
    unfold Dict.wf in Hwf. simpl in Hwf. apply NoDup_cons_iff in Hwf.
    destruct Hwf as [Hk Hwf].
    rewrite (IH rest ks); simpl.
    + rewrite <- app_assoc. reflexivity.
    + exact Hwf.
    + rewrite Hs. simpl. rewrite String.eqb_refl. now apply del_absent.
    + intros id c' Hin. apply (Hok id). now right.
Qed.

Lemma keys_app {V : Type} (d1 d2 : dict V) :
  Dict.keys (d1 ++ d2) = Dict.keys d1 ++ Dict.keys d2.
Proof. apply map_app. Qed.

(** C2, as the code has it.  The shutdown half of [lifespan] is
    [close_all_sessions].  When every live client closes without raising,
    it returns with both maps empty, having closed every client in
    insertion order.  When the close of some client raises, the exception
    leaves [close_all_sessions] at that session: the sessions before it
    were closed and removed; that session and all later ones stay in the
    registry, and the later ones are not closed. *)
Theorem close_all_sessions_spec w :
  Dict.wf (sessions (session_manager w)) ->
  keys_agree (session_manager w) ->
  lifespan_shutdown w = close_all_sessions w
  /\ ((forall id c, In (id, c) (sessions (session_manager w)) -> aexit c = None) ->
      fst (close_all_sessions w) = inr tt
      /\ session_manager (snd (close_all_sessions w))
         = mkSessionManager Dict.empty Dict.empty
      /\ calls (snd (close_all_sessions w))
         = calls w ++ map Call_aexit (Dict.values (sessions (session_manager w))))
  /\ (forall before session_id client msg after,
        sessions (session_manager w) = before ++ (session_id, client) :: after ->
        (forall id c, In (id, c) before -> aexit c = None) ->
        aexit client = Some msg ->
        fst (close_all_sessions w) = inl (Exception msg)
        /\ sessions (session_manager (snd (close_all_sessions w)))
           = (session_id, client) :: after
        /\ calls (snd (close_all_sessions w))
           = calls w ++ map Call_aexit (Dict.values before)
             ++ [Call_aexit client]).
Proof.
  intros Hwf Hagree. split; [reflexivity|]. split.
  - intros Hok. rewrite close_all_sessions_eq.
    rewrite <- (app_nil_r (Dict.keys (sessions (session_manager w)))).
    rewrite (close_each_prefix (sessions (session_manager w)) [] [] w);
      [| now rewrite app_nil_r | now rewrite app_nil_r | exact Hok].
    simpl. repeat split. f_equal. apply del_all_covered.
    intros k Hk. apply mem_true_iff. rewrite (Hagree k). now apply mem_true_iff.
  - intros before session_id client msg after Hs Hok X.
    assert (E : exists so,
      close_all_sessions w
      = (inl (Exception msg),
         mkWorld (mkSessionManager ((session_id, client) :: after) so)
           (uuid_calls w) (clients_built w)
           ((calls w ++ map Call_aexit (Dict.values before))
            ++ [Call_aexit client]))).
    { eexists. rewrite close_all_sessions_eq, Hs, keys_app.
      rewrite (close_each_prefix before ((session_id, client) :: after) _ w);
        [| now rewrite <- Hs | exact Hs | exact Hok].
      change (Dict.keys ((session_id, client) :: after))
        with (session_id :: Dict.keys after).
      rewrite for_each_cons. unfold bind at 1.
      rewrite (close_session_raises _ _ client msg);
        [| simpl; now rewrite String.eqb_refl | exact X].
      reflexivity. }
    destruct E as [so ->]. simpl. repeat split. now rewrite <- app_assoc.
Qed.

(** ** The endpoints, one by one *)

Lemma convert_options_world (o : option (dict Json)) w :
  snd (convert_options o w) = w.
Proof.
  unfold convert_options, ClaudeAgentOptions_new. unfold_monad.
  destruct (truthy o); [|reflexivity].
  destruct o as [kwargs|]; [|reflexivity].
  destruct (ClaudeAgentOptions_kwargs kwargs); reflexivity.
Qed.

Lemma convert_options_fails (o : option (dict Json)) w e :
  fst (convert_options o w) = inl e -> exists msg, e = Exception msg.
Proof.
  unfold convert_options, ClaudeAgentOptions_new. unfold_monad.
  destruct (truthy o); [|discriminate].
  destruct o as [kwargs|]; [|discriminate].
  destruct (ClaudeAgentOptions_kwargs kwargs) as [msg|]; [|discriminate].
  simpl. intros [= <-]. now exists msg.
Qed.

(** The buffered loop: all the messages, or the exception of the upstream. *)
Lemma async_for_collect (upstream : AsyncIter Message) :
  forall (acc : list string) w,
    async_for upstream
      (fun message messages => ret (messages ++ [str_message message])) acc w
    = (match raises upstream with
       | Some msg => inl (Exception msg)
       | None => inr (acc ++ map str_message (yields upstream))
       end, w).
Proof.
  induction upstream as [a rest IH| |msg]; intros acc w; simpl.
  - unfold bind, ret at 1. rewrite IH. rewrite <- app_assoc. reflexivity.
  - now rewrite app_nil_r.
  - reflexivity.
Qed.

Lemma health_check_eq w :
  serve GET_health w =
  (mkHttp 200 (JsonBody (JObject
     [("status", JString "healthy");
      ("service", JString "claude-agent-sdk-api");
      ("active_sessions",
       JInt (Z.of_nat (Dict.len (sessions (session_manager w)))))])), w).
Proof. reflexivity. Qed.

Lemma get_sessions_eq w :
  serve GET_sessions w =
  (mkHttp 200 (JsonBody (JObject
     [("sessions",
       JArray (map JString (Dict.keys (sessions (session_manager w)))));
      ("count", JInt (Z.of_nat (Dict.len (sessions (session_manager w)))))])),
   w).
Proof. reflexivity. Qed.

Lemma query_session_absent session_id (request : SessionQueryRequest.t) w :
  Dict.get session_id (sessions (session_manager w)) = None ->
  serve (POST_session_query session_id request) w
  = (mkHttp 404 (JsonBody (JObject [("detail", JString "Session not found")])),
     w).
Proof.
  intros G. unfold serve, app, query_session, get_session. unfold_monad.
  rewrite G. reflexivity.
Qed.

Lemma query_session_send_fails session_id client
  (request : SessionQueryRequest.t) w msg :
  Dict.get session_id (sessions (session_manager w)) = Some client ->
  query client (SessionQueryRequest.prompt request) = Some msg ->
  serve (POST_session_query session_id request) w
  = (mkHttp 500 (JsonBody (JObject [("detail", JString msg)])),
     log_call (Call_query client (SessionQueryRequest.prompt request)) w).
Proof.
  intros G Q. unfold serve, app, query_session, get_session.
  unfold bind at 1, gets. rewrite G. unfold try_except, bind at 1.
  rewrite client_query_eq, Q. reflexivity.
Qed.

Lemma query_session_streams session_id client
  (request : SessionQueryRequest.t) w :
  Dict.get session_id (sessions (session_manager w)) = Some client ->
  query client (SessionQueryRequest.prompt request) = None ->
  SessionQueryRequest.stream request = true ->
  serve (POST_session_query session_id request) w
  = (mkHttp 200 (EventStream (yielded (query_session_generate client request))),
     log_call (Call_query client (SessionQueryRequest.prompt request)) w).
Proof.
  intros G Q S. unfold serve, app, query_session, get_session.
  unfold bind at 1, gets. rewrite G. unfold try_except, bind at 1.
  rewrite client_query_eq, Q, S. reflexivity.
Qed.

Lemma query_session_buffers session_id client
  (request : SessionQueryRequest.t) w :
  Dict.get session_id (sessions (session_manager w)) = Some client ->
  query client (SessionQueryRequest.prompt request) = None ->
  SessionQueryRequest.stream request = false ->
  serve (POST_session_query session_id request) w
  = (match raises (receive_response client (SessionQueryRequest.prompt request)) with
     | Some msg => mkHttp 500 (JsonBody (JObject [("detail", JString msg)]))
     | None =>
         mkHttp 200 (JsonBody (JObject
           [("status", JString "success");
            ("session_id", JString session_id);
            ("messages",
             JArray (map JString
               (map str_message
                  (yields (receive_response client
                             (SessionQueryRequest.prompt request))))))]))
     end,
     log_call (Call_query client (SessionQueryRequest.prompt request)) w).
Proof.
  intros G Q S. unfold serve, app, query_session, get_session.
  unfold bind at 1, gets. rewrite G. unfold try_except, bind at 1.
  rewrite client_query_eq, Q, S. unfold bind at 1.
  rewrite async_for_collect.
  destruct (raises _); reflexivity.
Qed.

Lemma query_claude_options_fail (request : QueryRequest.t) w e :
  fst (convert_options (QueryRequest.options request) w) = inl e ->
  serve (POST_query request) w
  = (mkHttp 500 (JsonBody (JObject [("detail", JString (str_exn e))])), w).
Proof.
  intros C. unfold serve, app, query_claude, try_except. unfold bind at 1.
  pose proof (convert_options_world (QueryRequest.options request) w) as Hw.
  destruct (convert_options _ w) as [[e'|o] w1]; simpl in *; [|discriminate].
  injection C as ->. subst w1. reflexivity.
Qed.

Lemma query_claude_streams (request : QueryRequest.t) w options :
  fst (convert_options (QueryRequest.options request) w) = inr options ->
  QueryRequest.stream request = true ->
  serve (POST_query request) w
  = (mkHttp 200 (EventStream (yielded (query_claude_generate request options))),
     w).
Proof.
  intros C S. unfold serve, app, query_claude, try_except. unfold bind at 1.
  pose proof (convert_options_world (QueryRequest.options request) w) as Hw.
  destruct (convert_options _ w) as [[e'|o] w1]; simpl in *; [discriminate|].
  injection C as ->. subst w1. rewrite S. reflexivity.
Qed.

Lemma query_claude_buffers (request : QueryRequest.t) w options :
  fst (convert_options (QueryRequest.options request) w) = inr options ->
  QueryRequest.stream request = false ->
  serve (POST_query request) w
  = (match raises (sdk_query (QueryRequest.prompt request) options) with
     | Some msg => mkHttp 500 (JsonBody (JObject [("detail", JString msg)]))
     | None =>
         mkHttp 200 (JsonBody (JObject
           [("status", JString "success");
            ("messages",
             JArray (map JString
               (map str_message
                  (yields (sdk_query (QueryRequest.prompt request) options)))))]))
     end, w).
Proof.
  intros C S. unfold serve, app, query_claude, try_except. unfold bind at 1.
  pose proof (convert_options_world (QueryRequest.options request) w) as Hw.
  destruct (convert_options _ w) as [[e'|o] w1]; simpl in *; [discriminate|].
  injection C as ->. subst w1. rewrite S. unfold bind at 1.
  rewrite async_for_collect.
  destruct (raises _); reflexivity.
Qed.

(** ** The claims about the responders *)

(** C3, as the code does it.  The generator of [query_claude] and the
    generator of [query_session] have one behaviour.  For an upstream with
    at least one message they emit one message frame per upstream message,
    in order, and then one terminal frame: [done] when the upstream is
    exhausted, [error] with the exception's text when it raises; the frames
    hold exactly one terminal frame, it is the last one, and the generator
    returns.  For an upstream with no message (exhausted or raising at
    once) they emit no frame and end with an [UnboundLocalError]: the name
    [json] is bound by the [import json] of the loop body only. *)
Theorem streamed_responder_frames :
  (forall (request : QueryRequest.t) (options : option ClaudeAgentOptions),
     responder_outcome str_message
       (sdk_query (QueryRequest.prompt request) options)
       (query_claude_generate request options))
  /\ (forall (client : Client) (request : SessionQueryRequest.t),
        responder_outcome str_message
          (receive_response client (SessionQueryRequest.prompt request))
          (query_session_generate client request)).
Proof.
  split; intros.
  - exact (generate_outcome str_message
             (sdk_query (QueryRequest.prompt request) options)).
  - exact (generate_outcome str_message
             (receive_response client (SessionQueryRequest.prompt request))).
Qed.

(** C4.  With [stream] false, [POST /query] (once the options are
    accepted) and [POST /sessions/{id}/query] (for a live session that
    accepts the prompt) answer 200 with status [success] and the printed
    upstream messages in order when the upstream is exhausted without
    raising; when it raises, they answer 500 with only the exception's
    text, and no list of messages. *)
Theorem buffered_query_spec :
  (forall (request : QueryRequest.t) (options : option ClaudeAgentOptions) w,
     QueryRequest.stream request = false ->
     fst (convert_options (QueryRequest.options request) w) = inr options ->
     let upstream := sdk_query (QueryRequest.prompt request) options in
     (raises upstream = None ->
      serve (POST_query request) w
      = (mkHttp 200 (JsonBody (JObject
           [("status", JString "success");
            ("messages",
             JArray (map JString (map str_message (yields upstream))))])),
         w))
     /\ (forall msg,
           raises upstream = Some msg ->
           serve (POST_query request) w
           = (mkHttp 500 (JsonBody (JObject [("detail", JString msg)])), w)))
  /\ (forall session_id client (request : SessionQueryRequest.t) w,
        SessionQueryRequest.stream request = false ->
        Dict.get session_id (sessions (session_manager w)) = Some client ->
        query client (SessionQueryRequest.prompt request) = None ->
        let upstream :=
          receive_response client (SessionQueryRequest.prompt request) in
        (raises upstream = None ->
         fst (serve (POST_session_query session_id request) w)
         = mkHttp 200 (JsonBody (JObject
             [("status", JString "success");
              ("session_id", JString session_id);
              ("messages",
               JArray (map JString (map str_message (yields upstream))))])))
        /\ (forall msg,
              raises upstream = Some msg ->
              fst (serve (POST_session_query session_id request) w)
              = mkHttp 500 (JsonBody (JObject [("detail", JString msg)])))).
Proof.
  split.
  - intros request options w S C upstream. subst upstream.
    rewrite (query_claude_buffers _ _ _ C S). split.
    + intros ->. reflexivity.
    + intros msg ->. reflexivity.
  - intros session_id client request w S G Q upstream. subst upstream.
    rewrite (query_session_buffers _ _ _ _ G Q S). simpl. split.
    + intros ->. reflexivity.
    + intros msg ->. reflexivity.
Qed.

(** C7.  A query on a session id that is not in the registry is answered
    404, and the world (the manager's two maps included) is unchanged. *)
Theorem query_unknown_session session_id (request : SessionQueryRequest.t) w :
  Dict.mem session_id (sessions (session_manager w)) = false ->
  serve (POST_session_query session_id request) w
  = (mkHttp 404 (JsonBody (JObject [("detail", JString "Session not found")])),
     w).
Proof.
  intros H. apply query_session_absent.
  unfold Dict.mem in H. destruct (Dict.get _ _); [discriminate | reflexivity].
Qed.

(** C8.  [GET /health] answers 200 in every world; [active_sessions] is
    the length of the session map, a non-negative number equal to the
    number of ids that [list_sessions] returns; the world is unchanged. *)
Theorem health_check_spec w :
  serve GET_health w
  = (mkHttp 200 (JsonBody (JObject
       [("status", JString "healthy");
        ("service", JString "claude-agent-sdk-api");
        ("active_sessions",
         JInt (Z.of_nat (Dict.len (sessions (session_manager w)))))])), w)
  /\ (0 <= Z.of_nat (Dict.len (sessions (session_manager w))))%Z
  /\ exists ids,
       fst (list_sessions w) = inr ids
       /\ Dict.len (sessions (session_manager w)) = length ids.
Proof.
  split; [reflexivity|]. split; [apply Nat2Z.is_nonneg|].
  eexists. split; [reflexivity|]. apply len_keys.
Qed.

(** C10.  In [POST /sessions/{id}/query] with [stream] true on a live
    session, the one call made on the client is [query] with the prompt.
    When it raises, the answer is a 500 response carrying the exception's
    text and no frame; only when it returns is the answer the event
    stream of the generator. *)
Theorem session_query_sends_first session_id client
  (request : SessionQueryRequest.t) w :
  SessionQueryRequest.stream request = true ->
  Dict.get session_id (sessions (session_manager w)) = Some client ->
  calls (snd (serve (POST_session_query session_id request) w))
  = calls w ++ [Call_query client (SessionQueryRequest.prompt request)]
  /\ (forall msg,
        query client (SessionQueryRequest.prompt request) = Some msg ->
        fst (serve (POST_session_query session_id request) w)
        = mkHttp 500 (JsonBody (JObject [("detail", JString msg)]))
        /\ frames_of (fst (serve (POST_session_query session_id request) w))
           = [])
  /\ (query client (SessionQueryRequest.prompt request) = None ->
      fst (serve (POST_session_query session_id request) w)
      = mkHttp 200
          (EventStream (yielded (query_session_generate client request)))).
Proof.
  intros S G.
  destruct (query client (SessionQueryRequest.prompt request)) as [msg|] eqn:Q.
  - rewrite (query_session_send_fails _ _ _ _ _ G Q). simpl.
    repeat split; try discriminate.
    + now injection H as <-.
  - rewrite (query_session_streams _ _ _ _ G Q S). simpl.
    repeat split; discriminate.
Qed.

(** ** Printing a UUID *)




Lemma length_hex_digits (n : nat) : forall x, length (hex_digits n x) = n.
Proof.
  induction n as [|n IH]; intros x; simpl; [reflexivity|].
  rewrite length_app, IH. simpl. lia.
Qed.


(** The characters of a printed UUID, from its 32 digits. *)
Definition uuid_chars (hex : list ascii) : list ascii :=
  slice 0 8 hex ++ ["-"%char] ++ slice 8 12 hex ++ ["-"%char] ++
  slice 12 16 hex ++ ["-"%char] ++ slice 16 20 hex ++ ["-"%char] ++
  skipn 20 hex.

Lemma str_uuid_chars (u : N) :
  str_uuid u = string_of_list_ascii (uuid_chars (hex_digits 32 u)).
Proof. reflexivity. Qed.




(** A printed UUID has 36 characters. *)
Lemma length_str_uuid (u : N) : String.length (str_uuid u) = 36.
Proof.
  rewrite str_uuid_chars.
  pose proof (length_hex_digits 32 u) as Hl.
  generalize dependent (hex_digits 32 u). intros l Hl.
  do 32 (destruct l as [|? l]; [discriminate Hl|]).
  destruct l; [|discriminate Hl]. reflexivity.
Qed.


(** ** Creating, listing and deleting sessions over HTTP *)

(** What a client reads off the responses. *)
Definition json_strings (j : Json) : list string :=
  match j with
  | JArray items =>
      flat_map (fun x => match x with JString s => [s] | _ => [] end) items
  | _ => []
  end.

(** The ids in the [sessions] field of a response. *)
Definition listed_sessions (resp : HttpResponse) : list string :=
  match http_body resp with
  | JsonBody j =>
      match json_field "sessions" j with
      | Some a => json_strings a
      | None => []
      end
  | _ => []
  end.

(** The [count] field of a response. *)
Definition reported_count (resp : HttpResponse) : option Z :=
  match http_body resp with
  | JsonBody j =>
      match json_field "count" j with
      | Some (JInt n) => Some n
      | _ => None
      end
  | _ => None
  end.

(** The id that a request has created, read off its response: the
    [session_id] of a 200 answer to [POST /sessions]. *)
Definition created_id (r : Request) (resp : HttpResponse) : option string :=
  match r, http_body resp with
  | POST_sessions _, JsonBody j =>
      if Nat.eqb (http_status resp) 200 then
        match json_field "session_id" j with
        | Some (JString id) => Some id
        | _ => None
        end
      else None
  | _, _ => None
  end.

(** The ids created by a sequence of requests, given their responses. *)
Fixpoint created_ids (rs : list Request) (resps : list HttpResponse)
  : list string :=
  match rs, resps with
  | r :: rs', resp :: resps' =>
      match created_id r resp with
      | Some id => id :: created_ids rs' resps'
      | None => created_ids rs' resps'
      end
  | _, _ => []
  end.

Lemma json_strings_map (l : list string) :
  json_strings (JArray (map JString l)) = l.
Proof.
  simpl. induction l as [|s l IH]; simpl; [reflexivity | now rewrite IH].
Qed.

Lemma listed_sessions_eq w :
  listed_sessions (fst (serve GET_sessions w))
  = Dict.keys (sessions (session_manager w)).
Proof.
  rewrite get_sessions_eq. unfold listed_sessions. cbn [fst http_body].
  cbn [json_field Dict.get String.eqb Ascii.eqb Bool.eqb]. apply json_strings_map.
Qed.

Lemma reported_count_eq w :
  reported_count (fst (serve GET_sessions w))
  = Some (Z.of_nat (Dict.len (sessions (session_manager w)))).
Proof. reflexivity. Qed.

Lemma post_sessions_eq (request : SessionCreateRequest.t) w :
  serve (POST_sessions request) w =
  match fst (convert_options (SessionCreateRequest.options request) w) with
  | inl e => (mkHttp 500 (JsonBody (JObject [("detail", JString (str_exn e))])), w)
  | inr options =>
      match create_session options w with
      | (inl e, w1) =>
          (mkHttp 500 (JsonBody (JObject [("detail", JString (str_exn e))])), w1)
      | (inr session_id, w1) =>
          (mkHttp 200 (JsonBody (JObject
             [("session_id", JString session_id);
              ("message", JString "Session created successfully")])), w1)
      end
  end.
Proof.
  unfold serve, app, post_sessions, try_except. unfold bind at 1.
  pose proof (convert_options_world (SessionCreateRequest.options request) w) as Hw.
  destruct (convert_options _ w) as [[e|o] w1]; simpl in *; subst w1;
    [reflexivity|].
  unfold bind at 1.
  destruct (create_session o w) as [[e|session_id] w1]; reflexivity.
Qed.

Lemma delete_session_eq session_id w :
  serve (DELETE_session session_id) w =
  match close_session session_id w with
  | (inl (Exception msg), w1) => (mkHttp 500 (PlainText "Internal Server Error"), w1)
  | (inl (HTTPException status_code detail), w1) =>
      (mkHttp status_code (JsonBody (JObject [("detail", JString detail)])), w1)
  | (inr true, w1) =>
      (mkHttp 200 (JsonBody (JObject
         [("status", JString "success");
          ("message",
           JString ("Session " ++ session_id ++ " deleted successfully"))])), w1)
  | (inr false, w1) =>
      (mkHttp 404 (JsonBody (JObject [("detail", JString "Session not found")])),
       w1)
  end.
Proof.
  unfold serve, app, delete_session. unfold bind at 1.
  destruct (close_session session_id w) as [[[msg|c d]|[|]] w1]; reflexivity.
Qed.

(** The effect of one request on the manager and on the count of UUIDs. *)
Inductive Effect (r : Request) (w : World) : Prop :=
| Effect_none :
    session_manager (snd (serve r w)) = session_manager w ->
    uuid_calls w <= uuid_calls (snd (serve r w)) ->
    created_id r (fst (serve r w)) = None ->
    Effect r w
| Effect_delete session_id :
    r = DELETE_session session_id ->
    session_manager (snd (serve r w))
    = mkSessionManager
        (Dict.del session_id (sessions (session_manager w)))
        (Dict.del session_id (session_options (session_manager w))) ->
    uuid_calls (snd (serve r w)) = uuid_calls w ->
    Effect r w
| Effect_create request client options :
    r = POST_sessions request ->
    session_manager (snd (serve r w))
    = mkSessionManager
        (Dict.set (str_uuid (uuid4 (uuid_calls w))) client
           (sessions (session_manager w)))
        (Dict.set (str_uuid (uuid4 (uuid_calls w))) options
           (session_options (session_manager w))) ->
    uuid_calls (snd (serve r w)) = S (uuid_calls w) ->
    fst (serve r w)
    = mkHttp 200 (JsonBody (JObject
        [("session_id", JString (str_uuid (uuid4 (uuid_calls w))));
         ("message", JString "Session created successfully")])) ->
    Effect r w.

Lemma query_claude_world (request : QueryRequest.t) w :
  snd (serve (POST_query request) w) = w.
Proof.
  destruct (fst (convert_options (QueryRequest.options request) w))
    as [e|options] eqn:C.
  - now rewrite (query_claude_options_fail _ _ _ C).
  - destruct (QueryRequest.stream request) eqn:S.
    + now rewrite (query_claude_streams _ _ _ C S).
    + now rewrite (query_claude_buffers _ _ _ C S).
Qed.

Lemma query_session_world session_id (request : SessionQueryRequest.t) w :
  session_manager (snd (serve (POST_session_query session_id request) w))
  = session_manager w
  /\ uuid_calls (snd (serve (POST_session_query session_id request) w))
     = uuid_calls w.
Proof.
  destruct (Dict.get session_id (sessions (session_manager w)))
    as [client|] eqn:G.
  - destruct (query client (SessionQueryRequest.prompt request))
      as [msg|] eqn:Q.
    + now rewrite (query_session_send_fails _ _ _ _ _ G Q).
    + destruct (SessionQueryRequest.stream request) eqn:S.
      * now rewrite (query_session_streams _ _ _ _ G Q S).
      * now rewrite (query_session_buffers _ _ _ _ G Q S).
  - now rewrite (query_session_absent _ _ _ G).
Qed.

Lemma serve_effect r w : Effect r w.
Proof.
  destruct r as [|request|request| |session_id|session_id request|session_id].
  - apply Effect_none; reflexivity || apply Nat.le_refl.
  - apply Effect_none; rewrite ?query_claude_world; reflexivity || apply Nat.le_refl.
  - pose proof (post_sessions_eq request w) as E.
    destruct (fst (convert_options (SessionCreateRequest.options request) w))
      as [e|options].
    + apply Effect_none; rewrite E; reflexivity || apply Nat.le_refl.
    + rewrite create_session_eq in E. cbv zeta in E.
      destruct (aenter _) eqn:A.
      * apply Effect_none; rewrite E; simpl; auto.
      * eapply Effect_create; [reflexivity | | |]; rewrite E; reflexivity.
  - apply Effect_none; reflexivity || apply Nat.le_refl.
  - apply Effect_none; try reflexivity;
      unfold serve, app, get_session_info, get_session; unfold_monad;
      destruct (Dict.get _ _); reflexivity || apply Nat.le_refl.
  - destruct (query_session_world session_id request w) as [H1 H2].
    apply Effect_none; [exact H1 | rewrite H2; apply Nat.le_refl | reflexivity].
  - pose proof (delete_session_eq session_id w) as E.
    destruct (Dict.get session_id (sessions (session_manager w)))
      as [client|] eqn:G.
    + destruct (aexit client) as [msg|] eqn:X.
      * rewrite (close_session_raises _ _ _ _ G X) in E.
        apply Effect_none; rewrite E; reflexivity || apply Nat.le_refl.
      * rewrite (close_session_closes _ _ _ G X) in E.
        eapply Effect_delete; [reflexivity | |]; rewrite E; reflexivity.
    + rewrite (close_session_absent _ _ G) in E.
      apply Effect_none; rewrite E; reflexivity || apply Nat.le_refl.
Qed.

(** The ids printed from the first [n] UUIDs. *)
Definition drawn_ids (n : nat) : list string :=
  map (fun i => str_uuid (uuid4 i)) (seq 0 n).

(** Every live id was printed from a UUID drawn so far. *)
Definition ids_drawn (w : World) : Prop :=
  forall id,
    In id (Dict.keys (sessions (session_manager w))) ->
    In id (drawn_ids (uuid_calls w)).

Lemma in_drawn_ids id n :
  In id (drawn_ids n) <-> exists i, i < n /\ id = str_uuid (uuid4 i).
Proof.
  unfold drawn_ids. rewrite in_map_iff. split.
  - intros (i & <- & Hi). apply in_seq in Hi. exists i. split; [lia | reflexivity].
  - intros (i & Hi & ->). exists i. split; [reflexivity|]. apply in_seq. lia.
Qed.

Lemma drawn_ids_mono id n m : n <= m -> In id (drawn_ids n) -> In id (drawn_ids m).
Proof.
  rewrite !in_drawn_ids. intros Hle (i & Hi & ->). exists i. split; [lia | reflexivity].
Qed.

Lemma serve_uuid_calls r w : uuid_calls w <= uuid_calls (snd (serve r w)).
Proof.
  destruct (serve_effect r w) as [_ H _|id _ _ H|req c o _ _ H _];
    [exact H | rewrite H; apply Nat.le_refl | rewrite H; apply Nat.le_succ_diag_r].
Qed.

Lemma serve_ids_drawn r w : ids_drawn w -> ids_drawn (snd (serve r w)).
Proof.
  intros Hw id. pose proof (serve_uuid_calls r w) as Hle.
  destruct (serve_effect r w) as [Hm _ _|sid _ Hm _|req c o _ Hm Hu _];
    rewrite Hm; simpl.
  - intros Hin. eapply drawn_ids_mono; [exact Hle | now apply Hw].
  - rewrite in_keys_del. intros [Hin _].
    eapply drawn_ids_mono; [exact Hle | now apply Hw].
  - rewrite in_keys_set. intros [->|Hin].
    + apply in_drawn_ids. exists (uuid_calls w). split; [lia | reflexivity].
    + eapply drawn_ids_mono; [exact Hle | now apply Hw].
Qed.

Lemma created_id_drawn r w id :
  created_id r (fst (serve r w)) = Some id ->
  id = str_uuid (uuid4 (uuid_calls w))
  /\ uuid_calls (snd (serve r w)) = S (uuid_calls w).
Proof.
  destruct (serve_effect r w) as [_ _ H|sid -> _ _|req c o -> _ Hu Hr].
  - rewrite H. discriminate.
  - discriminate.
  - rewrite Hr. cbn. intros [= <-]. split; [reflexivity | exact Hu].
Qed.

Lemma serve_all_cons r rs w :
  serve_all (r :: rs) w
  = (fst (serve r w) :: fst (serve_all rs (snd (serve r w))),
     snd (serve_all rs (snd (serve r w)))).
Proof.
  simpl. destruct (serve r w) as [resp w1]. simpl.
  destruct (serve_all rs w1) as [resps w2]. reflexivity.
Qed.

(** Along any sequence of requests, the live ids and the ids handed out
    all come from the UUIDs drawn so far. *)
Lemma serve_all_ids_drawn rs :
  forall w0,
    ids_drawn w0 ->
    ids_drawn (snd (serve_all rs w0))
    /\ uuid_calls w0 <= uuid_calls (snd (serve_all rs w0))
    /\ forall id,
         In id (created_ids rs (fst (serve_all rs w0))) ->
         In id (drawn_ids (uuid_calls (snd (serve_all rs w0)))).
Proof.
  induction rs as [|r rs IH]; intros w0 H0.
  - simpl. repeat split; [exact H0 | apply Nat.le_refl | intros id []].
  - rewrite serve_all_cons. cbn [fst snd].
    destruct (IH _ (serve_ids_drawn r w0 H0)) as (I1 & I2 & I3).
    pose proof (serve_uuid_calls r w0) as Hle.
    repeat split; [exact I1 | lia |].
    intros id. cbn [created_ids].
    destruct (created_id r (fst (serve r w0))) as [id0|] eqn:C; [|apply I3].
    intros [<-|Hin]; [|now apply I3].
    apply created_id_drawn in C. destruct C as [-> Hu].
    eapply drawn_ids_mono; [exact I2|].
    apply in_drawn_ids. exists (uuid_calls w0). split; [lia | reflexivity].
Qed.


Lemma serve_keeps_absent r w id :
  ~ In id (Dict.keys (sessions (session_manager w))) ->
  created_id r (fst (serve r w)) <> Some id ->
  ~ In id (Dict.keys (sessions (session_manager (snd (serve r w))))).
Proof.
  intros Habs Hc.
  destruct (serve_effect r w) as [Hm _ _|sid _ Hm _|req c o Hreq Hm _ Hr];
    rewrite Hm; simpl.
  - exact Habs.
  - rewrite in_keys_del. tauto.
  - rewrite in_keys_set. intros [->|Hin]; [|tauto].
    apply Hc. rewrite Hr, Hreq. reflexivity.
Qed.

Lemma serve_all_keeps_absent id rs :
  forall w,
    ~ In id (Dict.keys (sessions (session_manager w))) ->
    ~ In id (created_ids rs (fst (serve_all rs w))) ->
    ~ In id (Dict.keys (sessions (session_manager (snd (serve_all rs w))))).
Proof.
  induction rs as [|r rs IH]; intros w Habs Hc; [exact Habs|].
  rewrite serve_all_cons in *. cbn [fst snd created_ids] in *.
  apply IH.
  - apply serve_keeps_absent; [exact Habs|].
    intros E. rewrite E in Hc. apply Hc. now left.
  - destruct (created_id r (fst (serve r w))); [|exact Hc].
    intros Hin. apply Hc. now right.
Qed.

(** C6, as the code has it.  For a live id whose client closes without
    raising, [DELETE /sessions/{id}] answers 200 with status [success];
    after it and after any further requests, none of which creates that id
    again, the id is in neither the [GET /sessions] listing nor the result
    of [list_sessions], and a second [DELETE] of it is answered 404.  When
    the client's close raises, the answer is the 500 of an unhandled
    exception and the id stays listed. *)
Theorem delete_session_spec session_id client w :
  Dict.get session_id (sessions (session_manager w)) = Some client ->
  (aexit client = None ->
   fst (serve (DELETE_session session_id) w)
   = mkHttp 200 (JsonBody (JObject
       [("status", JString "success");
        ("message",
         JString ("Session " ++ session_id ++ " deleted successfully"))]))
   /\ forall later,
        let w1 := snd (serve (DELETE_session session_id) w) in
        let w2 := snd (serve_all later w1) in
        ~ In session_id (created_ids later (fst (serve_all later w1))) ->
        ~ In session_id (listed_sessions (fst (serve GET_sessions w2)))
        /\ (exists ids, fst (list_sessions w2) = inr ids /\ ~ In session_id ids)
        /\ fst (serve (DELETE_session session_id) w2)
           = mkHttp 404
               (JsonBody (JObject [("detail", JString "Session not found")])))
  /\ (forall msg,
        aexit client = Some msg ->
        fst (serve (DELETE_session session_id) w)
        = mkHttp 500 (PlainText "Internal Server Error")
        /\ In session_id
             (listed_sessions
                (fst (serve GET_sessions
                        (snd (serve (DELETE_session session_id) w)))))).
Proof.
  intros G. split.
  - intros X. pose proof (delete_session_eq session_id w) as E.
    rewrite (close_session_closes _ _ _ G X) in E.
    split; [now rewrite E|].
    intros later w1 w2 Hc.
    assert (Habs : ~ In session_id (Dict.keys (sessions (session_manager w2)))).
    { apply serve_all_keeps_absent; [|exact Hc].
      subst w1. rewrite E. simpl. rewrite in_keys_del. tauto. }
    rewrite listed_sessions_eq. repeat split.
    + exact Habs.
    + eexists. split; [reflexivity | exact Habs].
    + apply get_None_iff in Habs.
      rewrite delete_session_eq, (close_session_absent _ _ Habs). reflexivity.
  - intros msg X. pose proof (delete_session_eq session_id w) as E.
    rewrite (close_session_raises _ _ _ _ G X) in E.
    rewrite listed_sessions_eq, E. simpl. split; [reflexivity|].
    apply mem_true_iff. unfold Dict.mem. now rewrite G.
Qed.

(** ** The worlds the server reaches *)

(** The representation invariant of the manager: the session map has no
    duplicate key and the two maps hold the same keys. *)
Definition consistent (w : World) : Prop :=
  Dict.wf (sessions (session_manager w)) /\ keys_agree (session_manager w).

Lemma serve_consistent r w : consistent w -> consistent (snd (serve r w)).
Proof.
  intros [Hwf Hagree]. unfold consistent.
  destruct (serve_effect r w) as [Hm _ _|sid _ Hm _|req c o _ Hm _ _];
    rewrite Hm; simpl.
  - now split.
  - split; [now apply wf_del|]. intros id. simpl.
    destruct (string_dec id sid) as [->|Hne].
    + now rewrite !mem_del_same.
    + rewrite !mem_del_other by assumption. apply Hagree.
  - split; [now apply wf_set|]. intros id. simpl. rewrite !mem_set.
    now rewrite (Hagree id).
Qed.

Lemma served_world_consistent rs :
  consistent (snd (serve_all rs initial_world)).
Proof.
  assert (H : consistent initial_world).
  { split; [constructor | intros id; reflexivity]. }
  revert H. generalize initial_world.
  induction rs as [|r rs IH]; intros w Hw; [exact Hw|].
  rewrite serve_all_cons. cbn [snd]. apply IH. now apply serve_consistent.
Qed.

End Properties.

(** * Part II, continued: the rest of the code *)

Section LookupFacts.

Context {V : Type}.
Implicit Types (d : dict V) (k : string) (v : V).

Lemma get_set_same k v d : Dict.get k (Dict.set k v d) = Some v.
Proof.
  induction d as [|[k' v'] d IH]; simpl.
  - now rewrite String.eqb_refl.
  - destruct (String.eqb_spec k k') as [->|Hne]; simpl.
    + now rewrite String.eqb_refl.
    + destruct (String.eqb_spec k k'); [contradiction | exact IH].
Qed.

Lemma get_set_other k k' v d :
  k' <> k -> Dict.get k' (Dict.set k v d) = Dict.get k' d.
Proof.
  intros Hne. induction d as [|[k0 v0] d IH]; simpl.
  - destruct (String.eqb_spec k' k); [contradiction | reflexivity].
  - destruct (String.eqb_spec k k0) as [->|Hk]; simpl.
    + destruct (String.eqb_spec k' k0); [contradiction | reflexivity].
    + destruct (String.eqb_spec k' k0); [reflexivity | exact IH].
Qed.

Lemma get_del_other k k' d :
  k' <> k -> Dict.get k' (Dict.del k d) = Dict.get k' d.
Proof.
  intros Hne. induction d as [|[k0 v0] d IH]; simpl; [reflexivity|].
  destruct (String.eqb_spec k k0) as [->|Hk]; simpl.
  - rewrite IH. destruct (String.eqb_spec k' k0); [contradiction | reflexivity].
  - destruct (String.eqb_spec k' k0); [reflexivity | exact IH].
Qed.

End LookupFacts.

Section Further.

Context {sdk : Collaborators}.

Implicit Types (w : World) (session_id : string) (client : Client).

(** ** The manager, one session at a time *)

(** X1.  Whatever [close_session] does to [session_id], and whether it returns
    or raises, every other id keeps its client and its options. *)
Theorem close_session_keeps_other_sessions w session_id other :
  other <> session_id ->
  Dict.get other
    (sessions (session_manager (snd (close_session session_id w))))
  = Dict.get other (sessions (session_manager w))
  /\ Dict.get other
       (session_options (session_manager (snd (close_session session_id w))))
     = Dict.get other (session_options (session_manager w)).
Proof.
  intros Hne.
  destruct (close_session_manager w session_id) as [->| ->]; [now split|].
  simpl. now rewrite !get_del_other.
Qed.

(** X2.  When [create_session] returns an id, [get_session] of that id gives the
    client that was just built from the given options (the default options
    when none are given); that client was entered, and only that call was
    made; the options are stored under the same id; every other id keeps
    its client. *)
Theorem create_session_then_get (options : option ClaudeAgentOptions) w
  session_id :
  fst (create_session options w) = inr session_id ->
  let w' := snd (create_session options w) in
  let options' :=
    match options with
    | None => ClaudeAgentOptions_default
    | Some o => o
    end in
  let client := ClaudeSDKClient_init (clients_built w) options' in
  get_session session_id w' = (inr (Some client), w')
  /\ Dict.get session_id (session_options (session_manager w')) = Some options'
  /\ aenter client = None
  /\ calls w' = calls w ++ [Call_aenter client]
  /\ forall other,
       other <> session_id ->
       Dict.get other (sessions (session_manager w'))
       = Dict.get other (sessions (session_manager w)).
Proof.
  intros H w'. subst w'. revert H. rewrite create_session_eq. cbv zeta.
  destruct (aenter _) eqn:A; [discriminate|].
  cbn [fst snd]. intros [= <-].
  unfold get_session, gets. cbn.
  rewrite !get_set_same. repeat split.
  intros other Hne. now apply get_set_other.
Qed.

(** ** Reading one session *)

Lemma get_session_info_world session_id w :
  snd (serve (GET_session session_id) w) = w.
Proof.
  unfold serve, app, get_session_info, get_session, bind, gets, ret, raise.
  destruct (Dict.get session_id (sessions (session_manager w))); reflexivity.
Qed.

(** X3.  [GET /sessions/{id}] never changes the world; it answers 200 with the
    id and the status [active] exactly for the ids that [GET /sessions]
    lists, and 404 for every other id. *)
Theorem get_session_info_spec session_id w :
  snd (serve (GET_session session_id) w) = w
  /\ (In session_id (listed_sessions (fst (serve GET_sessions w))) ->
      fst (serve (GET_session session_id) w)
      = mkHttp 200 (JsonBody (JObject
          [("session_id", JString session_id);
           ("status", JString "active")])))
  /\ (~ In session_id (listed_sessions (fst (serve GET_sessions w))) ->
      fst (serve (GET_session session_id) w)
      = mkHttp 404
          (JsonBody (JObject [("detail", JString "Session not found")]))).
Proof.
  rewrite listed_sessions_eq.
  unfold serve, app, get_session_info, get_session, bind, gets, ret, raise.
  destruct (Dict.get session_id (sessions (session_manager w))) eqn:G; cbn.
  - repeat split. intros Habs. apply get_None_iff in Habs. congruence.
  - repeat split. intros Hin. apply get_None_iff in G. contradiction.
Qed.

(** ** Creating a session that cannot be created *)

(** X4.  A [POST /sessions] that cannot create its session.  When the
    options are rejected by the [ClaudeAgentOptions] constructor the answer
    is 500 with the constructor's message and the world is unchanged: no
    UUID is drawn and no client is built.  When the options are accepted
    and the new client raises on [__aenter__], the answer is 500 with that
    message; the manager's maps are unchanged, the client was entered and
    is neither stored nor closed.  In every case an answer other than 200
    leaves the manager as it was. *)
Theorem failed_create_spec (request : SessionCreateRequest.t) w :
  (forall msg,
     fst (convert_options (SessionCreateRequest.options request) w)
     = inl (Exception msg) ->
     serve (POST_sessions request) w
     = (mkHttp 500 (JsonBody (JObject [("detail", JString msg)])), w))
  /\ (forall options msg,
        fst (convert_options (SessionCreateRequest.options request) w)
        = inr options ->
        let client :=
          ClaudeSDKClient_init (clients_built w)
            match options with
            | None => ClaudeAgentOptions_default
            | Some o => o
            end in
        aenter client = Some msg ->
        fst (serve (POST_sessions request) w)
        = mkHttp 500 (JsonBody (JObject [("detail", JString msg)]))
        /\ session_manager (snd (serve (POST_sessions request) w))
           = session_manager w
        /\ calls (snd (serve (POST_sessions request) w))
           = calls w ++ [Call_aenter client])
  /\ (http_status (fst (serve (POST_sessions request) w)) <> 200 ->
      session_manager (snd (serve (POST_sessions request) w))
      = session_manager w).
Proof.
  pose proof (post_sessions_eq request w) as E.
  split; [|split].
  - intros msg C. rewrite C in E. exact E.
  - intros options msg C client A. subst client.
    rewrite C, create_session_eq in E. cbv zeta in E. rewrite A in E.
    rewrite E. repeat split.
  - intros Hne.
    destruct (fst (convert_options _ w)) as [e|options]; [now rewrite E|].
    rewrite create_session_eq in E. cbv zeta in E.
    destruct (aenter _); rewrite E in *; [reflexivity|].
    exfalso. now apply Hne.
Qed.

(** ** The stateless query *)

(** X5.  [POST /query] is stateless: whatever the options, the mode and the
    upstream do, the world after it is the world before it (no session, no
    UUID drawn, no client built or called). *)
Theorem query_claude_stateless (request : QueryRequest.t) w :
  snd (serve (POST_query request) w) = w.
Proof.
  destruct (fst (convert_options (QueryRequest.options request) w))
    as [e|options] eqn:C.
  - now rewrite (query_claude_options_fail _ _ _ C).
  - destruct (QueryRequest.stream request) eqn:S.
    + now rewrite (query_claude_streams _ _ _ C S).
    + now rewrite (query_claude_buffers _ _ _ C S).
Qed.

(** ** The streaming endpoints *)

(** X6.  With [stream] true, once the options are accepted ([POST /query])
    or the live session's client has accepted the prompt
    ([POST /sessions/{id}/query]), the endpoint returns a
    [StreamingResponse] of media type [text/event-stream] with the two
    no-cache and keep-alive headers, and the answer is 200 whatever the
    upstream does.  When the upstream gives at least one message the body
    holds the message frames followed by the [done] or [error] frame; when
    it gives none (exhausted or raising at once) the body holds no frame. *)
Theorem streamed_endpoints_spec :
  (forall (request : QueryRequest.t) (options : option ClaudeAgentOptions) w,
     QueryRequest.stream request = true ->
     fst (convert_options (QueryRequest.options request) w) = inr options ->
     let upstream := sdk_query (QueryRequest.prompt request) options in
     fst (app (POST_query request) w)
     = inr (StreamingResponse (query_claude_generate request options)
              "text/event-stream"
              [("Cache-Control", "no-cache"); ("Connection", "keep-alive")])
     /\ fst (serve (POST_query request) w)
        = mkHttp 200 (EventStream
            match yields upstream with
            | [] => []
            | _ :: _ => expected_frames str_message upstream
            end))
  /\ (forall session_id client (request : SessionQueryRequest.t) w,
        SessionQueryRequest.stream request = true ->
        Dict.get session_id (sessions (session_manager w)) = Some client ->
        query client (SessionQueryRequest.prompt request) = None ->
        let upstream :=
          receive_response client (SessionQueryRequest.prompt request) in
        fst (app (POST_session_query session_id request) w)
        = inr (StreamingResponse (query_session_generate client request)
                 "text/event-stream"
                 [("Cache-Control", "no-cache"); ("Connection", "keep-alive")])
        /\ fst (serve (POST_session_query session_id request) w)
           = mkHttp 200 (EventStream
               match yields upstream with
               | [] => []
               | _ :: _ => expected_frames str_message upstream
               end)).
Proof.
  split.
  - intros request options w S C upstream. split.
    + unfold app, query_claude, try_except. unfold bind at 1.
      pose proof (convert_options_world (QueryRequest.options request) w) as Hw.
      destruct (convert_options _ w) as [[e'|o] w1]; simpl in *; [discriminate|].
      injection C as ->. rewrite S. reflexivity.
    + rewrite (query_claude_streams _ _ _ C S). cbn [fst].
      change (query_claude_generate request options)
        with (run_generator (generate_body str_message upstream)).
      rewrite generate_run. destruct (yields upstream); reflexivity.
  - intros session_id client request w S G Q upstream. split.
    + unfold app, query_session, get_session.
      unfold bind at 1, gets. rewrite G. unfold try_except, bind at 1.
      rewrite client_query_eq, Q, S. reflexivity.
    + rewrite (query_session_streams _ _ _ _ G Q S). cbn [fst].
      change (query_session_generate client request)
        with (run_generator (generate_body str_message upstream)).
      rewrite generate_run. destruct (yields upstream); reflexivity.
Qed.

(** ** Status codes *)

(** The status code of the answer to a request that has reached its
    endpoint function, read off the world and the collaborators: 404 for a session-addressed request on an id that is not
    live; 500 when the options are rejected, when the call made on a client
    raises ([__aenter__], [query], [__aexit__]) or when a buffered upstream
    raises; 200 otherwise. *)
Definition status_table (r : Request) (w : World) : nat :=
  match r with
  | GET_health => 200
  | GET_sessions => 200
  | POST_query request =>
      match fst (convert_options (QueryRequest.options request) w) with
      | inl _ => 500
      | inr options =>
          if QueryRequest.stream request then 200
          else
            match raises (sdk_query (QueryRequest.prompt request) options) with
            | Some _ => 500
            | None => 200
            end
      end
  | POST_sessions request =>
      match fst (convert_options (SessionCreateRequest.options request) w) with
      | inl _ => 500
      | inr options =>
          match aenter (ClaudeSDKClient_init (clients_built w)
                          match options with
                          | None => ClaudeAgentOptions_default
                          | Some o => o
                          end) with
          | Some _ => 500
          | None => 200
          end
      end
  | GET_session session_id =>
      match Dict.get session_id (sessions (session_manager w)) with
      | None => 404
      | Some _ => 200
      end
  | POST_session_query session_id request =>
      match Dict.get session_id (sessions (session_manager w)) with
      | None => 404
      | Some client =>
          match query client (SessionQueryRequest.prompt request) with
          | Some _ => 500
          | None =>
              if SessionQueryRequest.stream request then 200
              else
                match raises (receive_response client
                                (SessionQueryRequest.prompt request)) with
                | Some _ => 500
                | None => 200
                end
          end
      end
  | DELETE_session session_id =>
      match Dict.get session_id (sessions (session_manager w)) with
      | None => 404
      | Some client =>
          match aexit client with
          | Some _ => 500
          | None => 200
          end
      end
  end.

Lemma serve_status r w :
  http_status (fst (serve r w)) = status_table r w.
Proof.
  destruct r as [|request|request| |session_id|session_id request|session_id];
    cbn [status_table].
  - reflexivity.
  - destruct (fst (convert_options (QueryRequest.options request) w))
      as [e|options] eqn:C.
    + now rewrite (query_claude_options_fail _ _ _ C).
    + destruct (QueryRequest.stream request) eqn:S.
      * now rewrite (query_claude_streams _ _ _ C S).
      * rewrite (query_claude_buffers _ _ _ C S).
        destruct (raises _); reflexivity.
  - rewrite post_sessions_eq.
    destruct (fst (convert_options _ w)) as [e|options]; [reflexivity|].
    rewrite create_session_eq. cbv zeta.
    destruct (aenter _); reflexivity.
  - reflexivity.
  - unfold serve, app, get_session_info, get_session, bind, gets, ret, raise.
    destruct (Dict.get _ _); reflexivity.
  - destruct (Dict.get session_id (sessions (session_manager w)))
      as [client|] eqn:G.
    + destruct (query client (SessionQueryRequest.prompt request))
        as [msg|] eqn:Q.
      * now rewrite (query_session_send_fails _ _ _ _ _ G Q).
      * destruct (SessionQueryRequest.stream request) eqn:S.
        -- now rewrite (query_session_streams _ _ _ _ G Q S).
        -- rewrite (query_session_buffers _ _ _ _ G Q S).
           destruct (raises _); reflexivity.
    + now rewrite (query_session_absent _ _ _ G).
  - rewrite delete_session_eq.
    destruct (Dict.get session_id (sessions (session_manager w)))
      as [client|] eqn:G.
    + destruct (aexit client) as [msg|] eqn:X.
      * now rewrite (close_session_raises _ _ _ _ G X).
      * now rewrite (close_session_closes _ _ _ G X).
    + now rewrite (close_session_absent _ _ G).
Qed.

(** X7.  For every request that has reached its endpoint function, the
    answer carries the status of [status_table]. *)
Theorem status_of_every_answer r w :
  http_status (fst (serve r w)) = status_table r w.
Proof. exact (serve_status r w). Qed.

(** The session id a request addresses in its path. *)
Definition addressed_session (r : Request) : option string :=
  match r with
  | GET_session session_id => Some session_id
  | POST_session_query session_id _ => Some session_id
  | DELETE_session session_id => Some session_id
  | _ => None
  end.

(** X8.  Among the requests that have reached their endpoint function,
    the answer is 404 exactly when the request addresses a session id that
    is not in the registry; every other answer to such a request is 200 or
    500. *)
Theorem not_found_exactly r w :
  (http_status (fst (serve r w)) = 404
   <-> exists session_id,
         addressed_session r = Some session_id
         /\ Dict.mem session_id (sessions (session_manager w)) = false)
  /\ (http_status (fst (serve r w)) = 200
      \/ http_status (fst (serve r w)) = 404
      \/ http_status (fst (serve r w)) = 500).
Proof.
  rewrite serve_status.
  split.
  - destruct r as [|request|request| |session_id|session_id request|session_id];
      cbn [status_table addressed_session].
    + split; [discriminate | intros (id & H & _); discriminate H].
    + split; [|intros (id & H & _); discriminate H].
      repeat match goal with
             | |- context [match ?x with _ => _ end] => destruct x
             end; discriminate.
    + split; [|intros (id & H & _); discriminate H].
      repeat match goal with
             | |- context [match ?x with _ => _ end] => destruct x
             end; discriminate.
    + split; [discriminate | intros (id & H & _); discriminate H].
    + destruct (Dict.get session_id (sessions (session_manager w))) eqn:G.
      * split; [discriminate|]. intros (id & [= <-] & H).
        unfold Dict.mem in H. rewrite G in H. discriminate H.
      * split; [|reflexivity]. intros _. exists session_id.
        split; [reflexivity|]. unfold Dict.mem. now rewrite G.
    + destruct (Dict.get session_id (sessions (session_manager w))) eqn:G.
      * split; [|intros (id & [= <-] & H); unfold Dict.mem in H;
                 rewrite G in H; discriminate H].
        repeat match goal with
               | |- context [match ?x with _ => _ end] => destruct x
               end; discriminate.
      * split; [|reflexivity]. intros _. exists session_id.
        split; [reflexivity|]. unfold Dict.mem. now rewrite G.
    + destruct (Dict.get session_id (sessions (session_manager w))) eqn:G.
      * split; [|intros (id & [= <-] & H); unfold Dict.mem in H;
                 rewrite G in H; discriminate H].
        destruct (aexit _); discriminate.
      * split; [|reflexivity]. intros _. exists session_id.
        split; [reflexivity|]. unfold Dict.mem. now rewrite G.
  - destruct r; cbn [status_table];
      repeat match goal with
             | |- context [match ?x with _ => _ end] => destruct x
             end; auto.
Qed.

(** ** What a request does to the registry and to the clients *)

(** X9.  The manager's maps change only through a [POST /sessions] or a
    [DELETE /sessions/{id}] that is answered 200: every other request, and
    every create or delete that fails, leaves both maps as they were. *)
Theorem registry_changes_only_by_create_or_delete r w :
  session_manager (snd (serve r w)) <> session_manager w ->
  ((exists request, r = POST_sessions request)
   \/ (exists session_id, r = DELETE_session session_id))
  /\ http_status (fst (serve r w)) = 200.
Proof.
  intros Hch.
  destruct (serve_effect r w) as [Hm _ _|sid Hr _ _|req c o Hr _ _ Hresp].
  - contradiction.
  - split; [right; now exists sid|]. subst r.
    rewrite delete_session_eq in *.
    destruct (Dict.get sid (sessions (session_manager w))) as [client|] eqn:G.
    + destruct (aexit client) as [msg|] eqn:X.
      * rewrite (close_session_raises _ _ _ _ G X) in Hch. now elim Hch.
      * now rewrite (close_session_closes _ _ _ G X).
    + rewrite (close_session_absent _ _ G) in Hch. now elim Hch.
  - split; [left; now exists req|]. now rewrite Hresp.
Qed.

(** The calls of [__aenter__], [query] and [__aexit__] that a request
    makes: a create whose options are accepted enters the client it builds;
    a query on a live session sends the prompt to that session's client; a
    delete of a live session closes that session's client; and no request
    makes another call of these three. *)
Definition client_calls (r : Request) (w : World) : list Call :=
  match r with
  | POST_sessions request =>
      match fst (convert_options (SessionCreateRequest.options request) w) with
      | inl _ => []
      | inr options =>
          [Call_aenter
             (ClaudeSDKClient_init (clients_built w)
                match options with
                | None => ClaudeAgentOptions_default
                | Some o => o
                end)]
      end
  | POST_session_query session_id request =>
      match Dict.get session_id (sessions (session_manager w)) with
      | Some client =>
          [Call_query client (SessionQueryRequest.prompt request)]
      | None => []
      end
  | DELETE_session session_id =>
      match Dict.get session_id (sessions (session_manager w)) with
      | Some client => [Call_aexit client]
      | None => []
      end
  | _ => []
  end.

Lemma serve_calls r w :
  calls (snd (serve r w)) = calls w ++ client_calls r w.
Proof.
  destruct r as [|request|request| |session_id|session_id request|session_id];
    cbn [client_calls].
  - now rewrite app_nil_r.
  - now rewrite query_claude_world, app_nil_r.
  - rewrite post_sessions_eq.
    destruct (fst (convert_options _ w)) as [e|options];
      [now rewrite app_nil_r|].
    rewrite create_session_eq. cbv zeta.
    destruct (aenter _); reflexivity.
  - now rewrite app_nil_r.
  - now rewrite get_session_info_world, app_nil_r.
  - destruct (Dict.get session_id (sessions (session_manager w)))
      as [client|] eqn:G.
    + destruct (query client (SessionQueryRequest.prompt request))
        as [msg|] eqn:Q.
      * now rewrite (query_session_send_fails _ _ _ _ _ G Q).
      * destruct (SessionQueryRequest.stream request) eqn:S.
        -- now rewrite (query_session_streams _ _ _ _ G Q S).
        -- now rewrite (query_session_buffers _ _ _ _ G Q S).
    + now rewrite (query_session_absent _ _ _ G), app_nil_r.
  - rewrite delete_session_eq.
    destruct (Dict.get session_id (sessions (session_manager w)))
      as [client|] eqn:G.
    + destruct (aexit client) as [msg|] eqn:X.
      * now rewrite (close_session_raises _ _ _ _ G X).
      * now rewrite (close_session_closes _ _ _ G X).
    + now rewrite (close_session_absent _ _ G), app_nil_r.
Qed.

(** X10.  Of the three operations [__aenter__], [query] and [__aexit__],
    every request that has reached its endpoint function makes exactly the
    calls of [client_calls], after the calls made before it. *)
Theorem calls_of_every_request r w :
  calls (snd (serve r w)) = calls w ++ client_calls r w.
Proof. exact (serve_calls r w). Qed.

(** ** What the listing shows *)

(** X11.  In every world the server reaches from the empty registry,
    [GET /sessions] lists no id twice, its [count] is the length of its
    list, and [GET /health] reports the same number. *)
Theorem listing_is_consistent (history : list Request) :
  let w := snd (serve_all history initial_world) in
  NoDup (listed_sessions (fst (serve GET_sessions w)))
  /\ reported_count (fst (serve GET_sessions w))
     = Some (Z.of_nat (length (listed_sessions (fst (serve GET_sessions w)))))
  /\ http_body (fst (serve GET_health w))
     = JsonBody (JObject
         [("status", JString "healthy");
          ("service", JString "claude-agent-sdk-api");
          ("active_sessions",
           JInt (Z.of_nat
                   (length (listed_sessions (fst (serve GET_sessions w))))))]).
Proof.
  intros w. destruct (served_world_consistent history) as [Hwf _]. fold w in Hwf.
  rewrite listed_sessions_eq, reported_count_eq, health_check_eq.
  rewrite <- len_keys. repeat split. exact Hwf.
Qed.

(** X12.  In every world the server reaches from the empty registry, a listed
    session id is the printed form of a UUID drawn by an earlier
    [uuid.uuid4()]: a string of 36 characters. *)
Theorem live_ids_are_uuid_strings (history : list Request) session_id :
  let w := snd (serve_all history initial_world) in
  In session_id (listed_sessions (fst (serve GET_sessions w))) ->
  String.length session_id = 36
  /\ exists i, i < uuid_calls w /\ session_id = str_uuid (uuid4 i).
Proof.
  intros w Hin. rewrite listed_sessions_eq in Hin.
  assert (Hinit : ids_drawn initial_world) by (intros id []).
  destruct (serve_all_ids_drawn history _ Hinit) as (I1 & _ & _).
  apply I1, in_drawn_ids in Hin. destruct Hin as (i & Hi & ->).
  split; [apply length_str_uuid | now exists i].
Qed.

(** X13.  The order of the listing.  A delete answered 200 removes the id and
    keeps the other ids in their order.  A create answered 200 whose id
    was not listed puts it last.  A create answered 200 whose id was
    already listed (the UUID repeats the one of a live session) leaves the
    listing as it is: the session's client is replaced by the new one. *)
Theorem listing_order w :
  (forall session_id,
     http_status (fst (serve (DELETE_session session_id) w)) = 200 ->
     listed_sessions
       (fst (serve GET_sessions (snd (serve (DELETE_session session_id) w))))
     = filter (fun k => negb (String.eqb session_id k))
         (listed_sessions (fst (serve GET_sessions w))))
  /\ (forall request session_id,
        created_id (POST_sessions request)
          (fst (serve (POST_sessions request) w)) = Some session_id ->
        let w' := snd (serve (POST_sessions request) w) in
        (~ In session_id (listed_sessions (fst (serve GET_sessions w))) ->
         listed_sessions (fst (serve GET_sessions w'))
         = listed_sessions (fst (serve GET_sessions w)) ++ [session_id])
        /\ (In session_id (listed_sessions (fst (serve GET_sessions w))) ->
            listed_sessions (fst (serve GET_sessions w'))
            = listed_sessions (fst (serve GET_sessions w))
            /\ exists client,
                 calls w' = calls w ++ [Call_aenter client]
                 /\ Dict.get session_id (sessions (session_manager w'))
                    = Some client)).
Proof.
  split.
  - intros session_id Hok. rewrite !listed_sessions_eq.
    rewrite delete_session_eq in *.
    destruct (Dict.get session_id (sessions (session_manager w)))
      as [client|] eqn:G.
    + destruct (aexit client) as [msg|] eqn:X.
      * rewrite (close_session_raises _ _ _ _ G X) in Hok. discriminate Hok.
      * rewrite (close_session_closes _ _ _ G X). cbn. apply keys_del.
    + rewrite (close_session_absent _ _ G) in Hok. discriminate Hok.
  - intros request session_id Hc w'. subst w'. rewrite !listed_sessions_eq.
    pose proof (created_id_drawn _ _ _ Hc) as [-> _].
    destruct (serve_effect (POST_sessions request) w)
      as [_ _ H|sid Hr _ _|req c o _ Hm _ _].
    + rewrite H in Hc. discriminate Hc.
    + discriminate Hr.
    + pose proof (serve_calls (POST_sessions request) w) as Hcalls.
      rewrite Hm. cbn [sessions]. split.
      * intros Habs. now apply keys_set_absent.
      * intros Hin. split; [now apply keys_set_present|].
        exists c. split; [|apply get_set_same].
        rewrite Hcalls. cbn [client_calls].
        pose proof (post_sessions_eq request w) as E.
        destruct (fst (convert_options _ w)) as [e|options].
        -- rewrite E in Hc. discriminate Hc.
        -- rewrite create_session_eq in E. cbv zeta in E.
           destruct (aenter _) eqn:A.
           ++ rewrite E in Hc. discriminate Hc.
           ++ rewrite E in Hm. cbn in Hm. injection Hm as Hs _.
              f_equal. f_equal.
              apply (f_equal (Dict.get (str_uuid (uuid4 (uuid_calls w))))) in Hs.
              rewrite !get_set_same in Hs. congruence.
Qed.

(** ** Every live session was opened *)

(** What the registry holds for a live session: a client that the
    constructor built from the options stored under the same id, and whose
    [__aenter__] was called and returned. *)
Definition opened (w : World) (session_id : string) (client : Client) : Prop :=
  exists n options,
    n < clients_built w
    /\ client = ClaudeSDKClient_init n options
    /\ Dict.get session_id (session_options (session_manager w)) = Some options
    /\ aenter client = None
    /\ In (Call_aenter client) (calls w).

Lemma serve_clients_built r w :
  clients_built w <= clients_built (snd (serve r w)).
Proof.
  destruct r as [|request|request| |session_id|session_id request|session_id].
  - apply Nat.le_refl.
  - rewrite query_claude_world. apply Nat.le_refl.
  - rewrite post_sessions_eq.
    destruct (fst (convert_options _ w)) as [e|options]; [apply Nat.le_refl|].
    rewrite create_session_eq. cbv zeta.
    destruct (aenter _); cbn; apply Nat.le_succ_diag_r.
  - apply Nat.le_refl.
  - rewrite get_session_info_world. apply Nat.le_refl.
  - destruct (Dict.get session_id (sessions (session_manager w)))
      as [client|] eqn:G.
    + destruct (query client (SessionQueryRequest.prompt request))
        as [msg|] eqn:Q.
      * rewrite (query_session_send_fails _ _ _ _ _ G Q). apply Nat.le_refl.
      * destruct (SessionQueryRequest.stream request) eqn:S.
        -- rewrite (query_session_streams _ _ _ _ G Q S). apply Nat.le_refl.
        -- rewrite (query_session_buffers _ _ _ _ G Q S). apply Nat.le_refl.
    + rewrite (query_session_absent _ _ _ G). apply Nat.le_refl.
  - rewrite delete_session_eq.
    destruct (Dict.get session_id (sessions (session_manager w)))
      as [client|] eqn:G.
    + destruct (aexit client) as [msg|] eqn:X.
      * rewrite (close_session_raises _ _ _ _ G X). apply Nat.le_refl.
      * rewrite (close_session_closes _ _ _ G X). apply Nat.le_refl.
    + rewrite (close_session_absent _ _ G). apply Nat.le_refl.
Qed.

Lemma opened_later r w session_id client options :
  opened w session_id client ->
  Dict.get session_id (session_options (session_manager w)) = Some options ->
  Dict.get session_id (session_options (session_manager (snd (serve r w))))
  = Some options ->
  opened (snd (serve r w)) session_id client.
Proof.
  intros (n & o & Hn & Hc & Ho & Ha & Hin) Hold Hnew.
  exists n, o. repeat split; try assumption.
  - pose proof (serve_clients_built r w). lia.
  - congruence.
  - rewrite serve_calls. apply in_or_app. now left.
Qed.

Lemma serve_opened r w :
  (forall session_id client,
     Dict.get session_id (sessions (session_manager w)) = Some client ->
     opened w session_id client) ->
  forall session_id client,
    Dict.get session_id (sessions (session_manager (snd (serve r w))))
    = Some client ->
    opened (snd (serve r w)) session_id client.
Proof.
  intros Hw session_id client G.
  assert (Hkeep : forall w',
            session_manager w' = session_manager w ->
            snd (serve r w) = w' ->
            opened (snd (serve r w)) session_id client).
  { intros w' Hm Hs. rewrite Hs, Hm in G. specialize (Hw _ _ G).
    destruct Hw as (n & o & Hn & Hc & Ho & Ha & Hin).
    apply (opened_later r w session_id client o).
    - now exists n, o.
    - exact Ho.
    - now rewrite Hs, Hm. }
  destruct r as [|request|request| |sid|sid request|sid].
  - now apply (Hkeep w).
  - apply (Hkeep w); [reflexivity | apply query_claude_world].
  - pose proof (post_sessions_eq request w) as E.
    destruct (fst (convert_options _ w)) as [e|options] eqn:C.
    + apply (Hkeep w); [reflexivity | now rewrite E].
    + rewrite create_session_eq in E. cbv zeta in E.
      destruct (aenter _) eqn:A.
      * eapply Hkeep; [|now rewrite E]. reflexivity.
      * rewrite E in G |- *. cbn in G |- *.
        destruct (string_dec session_id (str_uuid (uuid4 (uuid_calls w))))
          as [->|Hne].
        -- rewrite get_set_same in G. injection G as <-.
           eexists (clients_built w), _. cbn.
           repeat split; [lia | apply get_set_same | exact A |].
           apply in_or_app. right. now left.
        -- rewrite get_set_other in G by assumption.
           destruct (Hw _ _ G) as (n & o & Hn & Hc & Ho & Ha & Hin).
           exists n, o. cbn. repeat split; try assumption.
           ++ lia.
           ++ now rewrite get_set_other.
           ++ apply in_or_app. now left.
  - now apply (Hkeep w).
  - apply (Hkeep w); [reflexivity | apply get_session_info_world].
  - destruct (Dict.get sid (sessions (session_manager w)))
      as [c|] eqn:Gs.
    + destruct (query c (SessionQueryRequest.prompt request))
        as [msg|] eqn:Q.
      * eapply Hkeep; [|now rewrite (query_session_send_fails _ _ _ _ _ Gs Q)].
        reflexivity.
      * destruct (SessionQueryRequest.stream request) eqn:S.
        -- eapply Hkeep; [|now rewrite (query_session_streams _ _ _ _ Gs Q S)].
           reflexivity.
        -- eapply Hkeep; [|now rewrite (query_session_buffers _ _ _ _ Gs Q S)].
           reflexivity.
    + apply (Hkeep w); [reflexivity | now rewrite (query_session_absent _ _ _ Gs)].
  - pose proof (delete_session_eq sid w) as E.
    destruct (Dict.get sid (sessions (session_manager w))) as [c|] eqn:Gs.
    + destruct (aexit c) as [msg|] eqn:X.
      * rewrite (close_session_raises _ _ _ _ Gs X) in E.
        eapply Hkeep; [|now rewrite E]. reflexivity.
      * rewrite (close_session_closes _ _ _ Gs X) in E.
        rewrite E in G |- *. cbn in G |- *.
        destruct (string_dec session_id sid) as [->|Hne].
        -- exfalso. pose proof (mem_del_same sid (sessions (session_manager w))) as Hm.
           unfold Dict.mem in Hm. rewrite G in Hm. discriminate Hm.
        -- rewrite get_del_other in G by assumption.
           destruct (Hw _ _ G) as (n & o & Hn & Hc & Ho & Ha & Hin).
           exists n, o. cbn. repeat split; try assumption.
           ++ now rewrite get_del_other.
           ++ apply in_or_app. now left.
    + rewrite (close_session_absent _ _ Gs) in E.
      apply (Hkeep w); [reflexivity | now rewrite E].
Qed.

(** X14.  In every world the server reaches from the empty registry, the client
    of a live session is one the constructor built from the options stored
    under the same id in [session_options], and its [__aenter__] was called
    and returned: a session is registered only once its client is open. *)
Theorem live_sessions_were_opened (history : list Request) session_id client :
  let w := snd (serve_all history initial_world) in
  Dict.get session_id (sessions (session_manager w)) = Some client ->
  exists n options,
    n < clients_built w
    /\ client = ClaudeSDKClient_init n options
    /\ Dict.get session_id (session_options (session_manager w)) = Some options
    /\ aenter client = None
    /\ In (Call_aenter client) (calls w).
Proof.
  intros w. subst w. revert session_id client.
  assert (Hinit : forall session_id client,
            Dict.get session_id (sessions (session_manager initial_world))
            = Some client ->
            opened initial_world session_id client) by discriminate.
  revert Hinit. generalize initial_world.
  induction history as [|r rs IH]; intros w Hw session_id client G.
  - apply (Hw _ _ G).
  - rewrite serve_all_cons in G |- *. cbn [snd] in G |- *.
    apply (IH _ (serve_opened r w Hw) _ _ G).
Qed.

End Further.

(** * Part III: the properties at work on the concrete server *)

#[local] Existing Instance Demo.sdk.

(** An upstream that raises after one message gives a message frame and
    then an error frame, and nothing after it. *)
Example streamed_crash :
  fst (serve (POST_query (QueryRequest.mk "crash" None true)) initial_world)
  = mkHttp 200 (EventStream
      [message_frame "Message(partial)"; error_frame "connection lost"]).
Proof. reflexivity. Qed.

Example streamed_normal :
  fst (serve (POST_query (QueryRequest.mk "hi" None true)) initial_world)
  = mkHttp 200 (EventStream
      [message_frame "Message(echo)"; message_frame "Message(hi)"; done_frame]).
Proof. reflexivity. Qed.

Example health_of_three :
  fst (serve GET_health Demo.w3)
  = mkHttp 200 (JsonBody (JObject
      [("status", JString "healthy");
       ("service", JString "claude-agent-sdk-api");
       ("active_sessions", JInt 3)])).
Proof. reflexivity. Qed.

(** C1 at work: closing the session of a client that closes cleanly; of a
    client whose close raises; of an id that is not there. *)
Lemma close_session_spec_witness :
  (fst (close_session Demo.id0 Demo.w1) = inr true
   /\ Dict.mem Demo.id0
        (sessions (session_manager (snd (close_session Demo.id0 Demo.w1))))
      = false)
  /\ (fst (close_session Demo.id1 Demo.w3)
      = inl (Exception "process already exited")
      /\ session_manager (snd (close_session Demo.id1 Demo.w3))
         = session_manager Demo.w3)
  /\ close_session "nonexistent-id" Demo.w3 = (inr false, Demo.w3).
Proof.
  destruct (close_session_spec Demo.w1 Demo.id0) as [H _].
  destruct (H (Demo.client 0 []) eq_refl eq_refl) as (H1 & _ & H2 & _).
  destruct (close_session_spec Demo.w3 Demo.id1) as (_ & K & _).
  destruct (K (Demo.client 1 []) "process already exited" eq_refl eq_refl)
    as (K1 & _ & K2).
  destruct (close_session_spec Demo.w3 "nonexistent-id") as (_ & _ & A).
  exact (conj (conj H1 H2) (conj (conj K1 K2) (A eq_refl))).
Defined.

(** C1 as stated fails: the session [id1] is live, its client raises when
    closed; [close_session] then does not return true, and the entry is
    still in the registry. *)
Lemma close_session_keeps_entry_when_close_raises :
  Dict.mem Demo.id1 (sessions (session_manager Demo.w3)) = true
  /\ fst (close_session Demo.id1 Demo.w3)
     = inl (Exception "process already exited")
  /\ fst (close_session Demo.id1 Demo.w3) <> inr true
  /\ Dict.mem Demo.id1
       (sessions (session_manager (snd (close_session Demo.id1 Demo.w3))))
     = true.
Proof. vm_compute. repeat split. discriminate. Qed.

(** C2 at work: with one cleanly closing client the teardown empties the
    registry; with three sessions of which the second raises, it stops
    there. *)
Lemma close_all_sessions_spec_witness :
  (fst (close_all_sessions Demo.w1) = inr tt
   /\ session_manager (snd (close_all_sessions Demo.w1))
      = mkSessionManager Dict.empty Dict.empty)
  /\ (fst (close_all_sessions Demo.w3)
      = inl (Exception "process already exited")
      /\ sessions (session_manager (snd (close_all_sessions Demo.w3)))
         = [(Demo.id1, Demo.client 1 []); (Demo.id2, Demo.client 2 [])]).
Proof.
  destruct (served_world_consistent [Demo.create]) as [Hwf1 Hagree1].
  destruct (close_all_sessions_spec Demo.w1 Hwf1 Hagree1) as (_ & H & _).
  assert (Hok : forall id c,
            In (id, c) (sessions (session_manager Demo.w1)) -> aexit c = None).
  { intros id c [E|[]]. injection E as _ <-. reflexivity. }
  destruct (H Hok) as (H1 & H2 & _).
  destruct (served_world_consistent [Demo.create; Demo.create; Demo.create])
    as [Hwf3 Hagree3].
  destruct (close_all_sessions_spec Demo.w3 Hwf3 Hagree3) as (_ & _ & K).
  assert (Hok0 : forall id c,
            In (id, c) [(Demo.id0, Demo.client 0 [])] -> aexit c = None).
  { intros id c [E|[]]. injection E as _ <-. reflexivity. }
  destruct (K [(Demo.id0, Demo.client 0 [])] Demo.id1 (Demo.client 1 [])
              "process already exited" [(Demo.id2, Demo.client 2 [])]
              eq_refl Hok0 eq_refl) as (K1 & K2 & _).
  exact (conj (conj H1 H2) (conj K1 K2)).
Defined.

(** C2 as stated fails: of three live sessions the second raises when
    closed.  The shutdown teardown ends with that exception and the
    registry is not empty: the failing session and the third one, whose
    client would have closed cleanly, remain, and only two closes were
    attempted. *)
Lemma close_all_sessions_stops_at_first_failure :
  fst (lifespan_shutdown Demo.w3) = inl (Exception "process already exited")
  /\ Dict.keys (sessions (session_manager (snd (lifespan_shutdown Demo.w3))))
     = [Demo.id1; Demo.id2]
  /\ option_map aexit (Dict.get Demo.id2 (sessions (session_manager Demo.w3)))
     = Some None
  /\ length (calls (snd (lifespan_shutdown Demo.w3)))
     = length (calls Demo.w3) + 2.
Proof. repeat split. Qed.

(** C3 at work.  An upstream that raises after one message gives a message
    frame and then an error frame.  An upstream that is exhausted at once,
    and one that raises at once, give no frame: the generator ends with the
    [UnboundLocalError], for the stateless query and for the session
    query. *)
Lemma streamed_responder_frames_witness :
  query_claude_generate (sdk := Demo.sdk) (QueryRequest.mk "crash" None true) None
  = mkGen
      [Data (JObject [("type", JString "message");
                      ("content", JString "Message(partial)")]);
       Data (JObject [("type", JString "error");
                      ("error", JString "connection lost")])]
      None
  /\ query_claude_generate (sdk := Silent.sdk) (QueryRequest.mk "hi" None true) None
     = mkGen []
         (Some (Exception
            "cannot access local variable 'json' where it is not associated with a value"))
  /\ query_claude_generate (sdk := Silent.sdk)
       (QueryRequest.mk "crash" None true) None
     = mkGen []
         (Some (Exception
            "cannot access local variable 'json' where it is not associated with a value"))
  /\ query_session_generate (sdk := Silent.sdk)
       (ClaudeSDKClient_init (Collaborators := Silent.sdk) 0 [])
       (SessionQueryRequest.mk "hi" true)
     = mkGen []
         (Some (Exception
            "cannot access local variable 'json' where it is not associated with a value")).
Proof.
  destruct (streamed_responder_frames (sdk := Demo.sdk)) as [Hd _].
  destruct (Hd (QueryRequest.mk "crash" None true) None) as [H1 _].
  destruct H1 as (H1 & H2 & _); [discriminate|].
  destruct (streamed_responder_frames (sdk := Silent.sdk)) as [Hq Hs].
  destruct (Hq (QueryRequest.mk "hi" None true) None) as [_ K].
  destruct (K eq_refl) as [K1 K2].
  destruct (Hq (QueryRequest.mk "crash" None true) None) as [_ L].
  destruct (L eq_refl) as [L1 L2].
  destruct (Hs (ClaudeSDKClient_init (Collaborators := Silent.sdk) 0 [])
              (SessionQueryRequest.mk "hi" true)) as [_ N].
  destruct (N eq_refl) as [N1 N2].
  assert (Gen_eta : forall g frames e,
            yielded g = frames -> raised g = e -> g = mkGen frames e).
  { intros [] ? ? <- <-. reflexivity. }
  repeat split; apply Gen_eta; assumption.
Defined.

(** The same at the endpoints: the answer to a streamed query whose upstream
    gives no message is 200 with an empty event stream. *)
Example streamed_silent :
  fst (serve (sdk := Silent.sdk)
         (POST_query (QueryRequest.mk "hi" None true)) initial_world)
  = mkHttp 200 (EventStream [])
  /\ fst (serve (sdk := Silent.sdk)
            (POST_query (QueryRequest.mk "crash" None true)) initial_world)
     = mkHttp 200 (EventStream []).
Proof. split; reflexivity. Qed.

(** C4 at work: a buffered stateless query whose upstream ends normally,
    one whose upstream raises, and a buffered session query. *)
Lemma buffered_query_spec_witness :
  serve (POST_query (QueryRequest.mk "hi" None false)) initial_world
  = (mkHttp 200 (JsonBody (JObject
       [("status", JString "success");
        ("messages", JArray [JString "Message(echo)"; JString "Message(hi)"])])),
     initial_world)
  /\ serve (POST_query (QueryRequest.mk "crash" None false)) initial_world
     = (mkHttp 500 (JsonBody (JObject [("detail", JString "connection lost")])),
        initial_world)
  /\ fst (serve (POST_session_query Demo.id0
                   (SessionQueryRequest.mk "hi" false)) Demo.w1)
     = mkHttp 200 (JsonBody (JObject
         [("status", JString "success");
          ("session_id", JString Demo.id0);
          ("messages", JArray [JString "Message(echo)"; JString "Message(hi)"])])).
Proof.
  destruct buffered_query_spec as [Hq Hs].
  destruct (Hq (QueryRequest.mk "hi" None false) None initial_world
              eq_refl eq_refl) as [H1 _].
  destruct (Hq (QueryRequest.mk "crash" None false) None initial_world
              eq_refl eq_refl) as [_ H2].
  destruct (Hs Demo.id0 (Demo.client 0 [])
              (SessionQueryRequest.mk "hi" false) Demo.w1
              eq_refl eq_refl eq_refl) as [H3 _].
  exact (conj (H1 eq_refl) (conj (H2 _ eq_refl) (H3 eq_refl))).
Defined.



(** C6 at work: deleting the session of a cleanly closing client, then two
    more requests, then deleting it again. *)
Lemma delete_session_spec_witness :
  fst (serve (DELETE_session Demo.id0) Demo.w1)
  = mkHttp 200 (JsonBody (JObject
      [("status", JString "success");
       ("message",
        JString "Session 00000000-0000-4000-8000-000000000000 deleted successfully")]))
  /\ fst (serve (DELETE_session Demo.id0)
            (snd (serve_all [GET_sessions; Demo.create]
                    (snd (serve (DELETE_session Demo.id0) Demo.w1)))))
     = mkHttp 404 (JsonBody (JObject [("detail", JString "Session not found")])).
Proof.
  destruct (delete_session_spec (sdk := Demo.sdk) Demo.id0 (Demo.client 0 [])
              Demo.w1 eq_refl)
    as [H _].
  destruct (H eq_refl) as [H1 H2].
  destruct (H2 [GET_sessions; Demo.create]) as (_ & _ & H3).
  { vm_compute. intros [E|[]]. discriminate E. }
  exact (conj H1 H3).
Defined.

(** C6 as stated fails: the session [id1] is live, its client raises when
    closed; [DELETE] is answered 500, not success, and the id is still
    listed afterwards. *)
Lemma delete_session_fails_when_close_raises :
  Dict.mem Demo.id1 (sessions (session_manager Demo.w3)) = true
  /\ fst (serve (DELETE_session Demo.id1) Demo.w3)
     = mkHttp 500 (PlainText "Internal Server Error")
  /\ listed_sessions
       (fst (serve GET_sessions (snd (serve (DELETE_session Demo.id1) Demo.w3))))
     = [Demo.id0; Demo.id1; Demo.id2].
Proof. repeat split. Qed.

(** C7 at work: the request of the repository's test of an unknown id. *)
Lemma query_unknown_session_witness :
  serve (POST_session_query "nonexistent-id"
           (SessionQueryRequest.mk "Hello" false)) Demo.w3
  = (mkHttp 404 (JsonBody (JObject [("detail", JString "Session not found")])),
     Demo.w3).
Proof.
  exact (query_unknown_session "nonexistent-id"
           (SessionQueryRequest.mk "Hello" false) Demo.w3 eq_refl).
Defined.

(** C9 at work: the maps agree after a teardown that was cut short. *)
Lemma session_maps_hold_the_same_keys_witness :
  keys_agree (session_manager (perform Op_close_all_sessions Demo.w3)).
Proof.
  destruct session_maps_hold_the_same_keys as [H _].
  apply (H Op_close_all_sessions Demo.w3).
  exact (proj2 (served_world_consistent [Demo.create; Demo.create; Demo.create])).
Defined.

(** C10 at work: the client refuses the empty prompt. *)
Lemma session_query_sends_first_witness :
  fst (serve (POST_session_query Demo.id0
                (SessionQueryRequest.mk "" true)) Demo.w1)
  = mkHttp 500 (JsonBody (JObject [("detail", JString "empty prompt")]))
  /\ frames_of (fst (serve (POST_session_query Demo.id0
                              (SessionQueryRequest.mk "" true)) Demo.w1))
     = []
  /\ calls (snd (serve (POST_session_query Demo.id0
                          (SessionQueryRequest.mk "" true)) Demo.w1))
     = calls Demo.w1 ++ [Call_query (Demo.client 0 []) ""].
Proof.
  destruct (session_query_sends_first (sdk := Demo.sdk) Demo.id0
              (Demo.client 0 [])
              (SessionQueryRequest.mk "" true) Demo.w1 eq_refl eq_refl)
    as (H1 & H2 & _).
  destruct (H2 "empty prompt" eq_refl) as [H3 H4].
  exact (conj H3 (conj H4 H1)).
Defined.

(** * Part III, continued: the further properties at work *)

Lemma close_session_keeps_other_sessions_witness :
  Dict.get Demo.id2
    (sessions (session_manager (snd (close_session Demo.id0 Demo.w3))))
  = Some (Demo.client 2 [])
  /\ Dict.get Demo.id0
       (sessions (session_manager (snd (close_session Demo.id0 Demo.w3))))
     = None.
Proof.
  assert (Hne : Demo.id2 <> Demo.id0) by discriminate.
  destruct (close_session_keeps_other_sessions Demo.w3 Demo.id0 Demo.id2 Hne)
    as [H _].
  split; [exact H | reflexivity].
Defined.

Lemma create_session_then_get_witness :
  get_session Demo.id1 (snd (create_session None Demo.w1))
  = (inr (Some (Demo.client 1 [])), snd (create_session None Demo.w1))
  /\ calls (snd (create_session None Demo.w1))
     = calls Demo.w1 ++ [Call_aenter (Demo.client 1 [])].
Proof.
  destruct (create_session_then_get None Demo.w1 Demo.id1 eq_refl)
    as (H1 & _ & _ & H2 & _).
  exact (conj H1 H2).
Defined.

Lemma get_session_info_spec_witness :
  fst (serve (GET_session Demo.id0) Demo.w1)
  = mkHttp 200 (JsonBody (JObject
      [("session_id", JString Demo.id0); ("status", JString "active")]))
  /\ fst (serve (GET_session Demo.id1) Demo.w1)
     = mkHttp 404 (JsonBody (JObject [("detail", JString "Session not found")])).
Proof.
  destruct (get_session_info_spec Demo.id0 Demo.w1) as (_ & H & _).
  destruct (get_session_info_spec Demo.id1 Demo.w1) as (_ & _ & K).
  split.
  - apply H. vm_compute. now left.
  - apply K. vm_compute. intros [E|[]]. discriminate E.
Defined.

(** Options without the key [model] are rejected by the first set of
    collaborators; the third client of the second set cannot be entered. *)
Lemma failed_create_spec_witness :
  serve (POST_sessions (SessionCreateRequest.mk (Some [("verbose", JBool true)])))
    Demo.w1
  = (mkHttp 500
       (JsonBody (JObject [("detail", JString "unexpected keyword argument")])),
     Demo.w1)
  /\ (fst (serve (sdk := Faulty.sdk) Demo.create Faulty.w2)
      = mkHttp 500 (JsonBody (JObject [("detail", JString "CLI not found")]))
      /\ session_manager (snd (serve (sdk := Faulty.sdk) Demo.create Faulty.w2))
         = session_manager Faulty.w2).
Proof.
  destruct (failed_create_spec
              (SessionCreateRequest.mk (Some [("verbose", JBool true)])) Demo.w1)
    as (H & _).
  destruct (failed_create_spec (sdk := Faulty.sdk)
              (SessionCreateRequest.mk None) Faulty.w2) as (_ & K & _).
  destruct (K None "CLI not found" eq_refl eq_refl) as (K1 & K2 & _).
  exact (conj (H "unexpected keyword argument" eq_refl) (conj K1 K2)).
Defined.

(** A streamed query whose upstream raises is still answered 200; one
    whose upstream gives no message is answered 200 with no frame. *)
Lemma streamed_endpoints_spec_witness :
  fst (serve (POST_query (QueryRequest.mk "crash" None true)) Demo.w1)
  = mkHttp 200 (EventStream
      [message_frame "Message(partial)"; error_frame "connection lost"])
  /\ fst (serve (POST_session_query Demo.id0
                   (SessionQueryRequest.mk "hi" true)) Demo.w1)
     = mkHttp 200 (EventStream
         [message_frame "Message(echo)"; message_frame "Message(hi)";
          done_frame])
  /\ fst (serve (sdk := Silent.sdk)
            (POST_query (QueryRequest.mk "crash" None true)) initial_world)
     = mkHttp 200 (EventStream []).
Proof.
  destruct (streamed_endpoints_spec (sdk := Demo.sdk)) as [Hq Hs].
  destruct (Hq (QueryRequest.mk "crash" None true) None Demo.w1
              eq_refl eq_refl) as [_ H1].
  destruct (Hs Demo.id0 (Demo.client 0 [])
              (SessionQueryRequest.mk "hi" true) Demo.w1
              eq_refl eq_refl eq_refl) as [_ H2].
  destruct (streamed_endpoints_spec (sdk := Silent.sdk)) as [Kq _].
  destruct (Kq (QueryRequest.mk "crash" None true) None initial_world
              eq_refl eq_refl) as [_ H3].
  exact (conj H1 (conj H2 H3)).
Defined.

Lemma registry_changes_only_by_create_or_delete_witness :
  ((exists request, DELETE_session Demo.id0 = POST_sessions request)
   \/ (exists session_id, DELETE_session Demo.id0 = DELETE_session session_id))
  /\ http_status (fst (serve (DELETE_session Demo.id0) Demo.w1)) = 200.
Proof.
  apply (registry_changes_only_by_create_or_delete (sdk := Demo.sdk)).
  intros E.
  apply (f_equal (fun m => Dict.len (sessions m))) in E.
  vm_compute in E. discriminate E.
Defined.

Lemma live_ids_are_uuid_strings_witness :
  String.length Demo.id0 = 36
  /\ exists i,
       i < uuid_calls (snd (serve_all [Demo.create] initial_world))
       /\ Demo.id0 = str_uuid (uuid4 i).
Proof.
  apply (live_ids_are_uuid_strings (sdk := Demo.sdk) [Demo.create] Demo.id0).
  vm_compute. now left.
Defined.

(** Deleting the first of three sessions keeps the order of the other two;
    a new session goes last; with a repeating UUID the second create
    replaces the session of the first. *)
Lemma listing_order_witness :
  listed_sessions
    (fst (serve GET_sessions (snd (serve (DELETE_session Demo.id0) Demo.w3))))
  = [Demo.id1; Demo.id2]
  /\ listed_sessions
       (fst (serve GET_sessions (snd (serve Demo.create Demo.w1))))
     = [Demo.id0; Demo.id1]
  /\ listed_sessions
       (fst (serve (sdk := Faulty.sdk) GET_sessions
               (snd (serve (sdk := Faulty.sdk) Demo.create Faulty.w1))))
     = [Demo.id0].
Proof.
  destruct (listing_order Demo.w3) as [H _].
  destruct (listing_order Demo.w1) as [_ K].
  destruct (K (SessionCreateRequest.mk None) Demo.id1 eq_refl) as [K1 _].
  destruct (listing_order (sdk := Faulty.sdk) Faulty.w1) as [_ L].
  destruct (L (SessionCreateRequest.mk None) Demo.id0 eq_refl) as [_ L1].
  split; [|split].
  - exact (H Demo.id0 eq_refl).
  - apply K1. vm_compute. intros [E|[]]. discriminate E.
  - apply L1. vm_compute. now left.
Defined.

Lemma live_sessions_were_opened_witness :
  exists n options,
    n < clients_built Demo.w3
    /\ Demo.client 1 [] = ClaudeSDKClient_init n options
    /\ Dict.get Demo.id1 (session_options (session_manager Demo.w3))
       = Some options
    /\ aenter (Demo.client 1 []) = None
    /\ In (Call_aenter (Demo.client 1 [])) (calls Demo.w3).
Proof.
  exact (live_sessions_were_opened (sdk := Demo.sdk)
           [Demo.create; Demo.create; Demo.create] Demo.id1
           (Demo.client 1 []) eq_refl).
Defined.
